(** * Implied forward P/E calculator: a shallow embedding of
      [Implied_PE_Multiple.py] and the properties of its three methods.

    The parameters of the calculator are documented as Python [float]s,
    so numbers are IEEE 754 binary64 values, taken from the Standard
    Library's executable specification [SpecFloat] (round to nearest,
    ties to even; one NaN).  Python raises [ZeroDivisionError] when a
    float is divided by a zero of either sign; that is the only exception
    the arithmetic of this program can raise.  The example run passes the
    integers 100 and 5 for price and EPS: next to the float growth rate
    Python converts them to the floats of the same value, which is how
    they are written here. *)

From Stdlib Require Import ZArith List Bool String Lia.
From Stdlib Require Import Floats.SpecFloat.
From Stdlib Require Import Sorting.Permutation Sorting.Sorted.
From Stdlib Require Import DecimalString.
Import ListNotations.

Local Open Scope Z_scope.

(** ** Python floats *)

Module PyFloat.

Definition float := spec_float.

Definition prec : Z := 53.
Definition emax : Z := 1024.

Definition add : float -> float -> float := SFadd prec emax.
Definition sub : float -> float -> float := SFsub prec emax.
Definition mul : float -> float -> float := SFmul prec emax.
(** IEEE division; Python reaches it only after its zero test. *)
Definition div : float -> float -> float := SFdiv prec emax.

(** [float(n)] for an integer literal [n] (far below the overflow
    threshold, so the conversion cannot fail). *)
Definition of_Z (n : Z) : float := binary_normalize prec emax n 0 false.

(** The double denoted by the decimal literal [num/den], for
    [num] and [den] exactly representable: the correctly rounded
    quotient. *)
Definition lit (num den : Z) : float := div (of_Z num) (of_Z den).

Definition nan : float := S754_nan.
Definition inf : float := S754_infinity false.

(** [x == 0.0]: true of both zeros, false of NaN. *)
Definition is_zero (x : float) : bool :=
  match x with S754_zero _ => true | _ => false end.

Definition is_nan (x : float) : bool :=
  match x with S754_nan => true | _ => false end.

(** [math.isfinite]. *)
Definition is_finite (x : float) : bool :=
  match x with S754_zero _ | S754_finite _ _ _ => true | _ => false end.

(** [x <= y] and [x == y] on floats: false as soon as one side is NaN. *)
Definition leb : float -> float -> bool := SFleb.
Definition eqb : float -> float -> bool := SFeqb.

(** Two results are the same number when they compare equal ([==], which
    identifies the two zeros) or are both NaN. *)
Definition same_number (x y : float) : bool :=
  eqb x y || (is_nan x && is_nan y).

End PyFloat.

Import PyFloat.

(** ** Exceptions *)

Inductive exn : Type :=
| ZeroDivisionError
| ValueError.

Inductive result (A : Type) : Type :=
| Ok (a : A)
| Raise (e : exn).

Arguments Ok {A} a.
Arguments Raise {A} e.

Definition bind {A B : Type} (r : result A) (k : A -> result B) : result B :=
  match r with
  | Ok a => k a
  | Raise e => Raise e
  end.

Notation "x <- r ;; k" := (bind r (fun x => k))
  (at level 61, r at next level, right associativity).

(** [a / b] on floats. *)
Definition truediv (a b : float) : result float :=
  if is_zero b then Raise ZeroDivisionError else Ok (div a b).

(** ** [ImpliedPECalculator] *)

Module ImpliedPECalculator.

(** The literals [1] and [0] of the source, as the floats Python
    coerces them to next to a float operand. *)
Definition one : float := of_Z 1.
Definition zero : float := of_Z 0.

(** [calculate_implied_pe(self, current_price, current_eps, growth_rate,
    payout_ratio=0)]. *)
Definition calculate_implied_pe
    (current_price current_eps growth_rate payout_ratio : float)
  : result float :=
  let retention_ratio := sub one payout_ratio in
  let forward_eps := mul current_eps (add one growth_rate) in
  implied_pe <- truediv current_price forward_eps ;;
  Ok implied_pe.

End ImpliedPECalculator.

Import ImpliedPECalculator.

(** Forward EPS: current earnings per share grown by one period. *)
Definition forward_eps (eps growth_rate : float) : float :=
  mul eps (add (of_Z 1) growth_rate).

(** ** Python dictionaries

    A [dict] keeps its keys unique and in insertion order; assigning to a
    key already present replaces the value in place. *)

Module PyDict.

Definition dict (V : Type) : Type := list (string * V).

Definition keys {V : Type} (d : dict V) : list string := map fst d.
Definition values {V : Type} (d : dict V) : list V := map snd d.

(** [d[k] = v] *)
Fixpoint setitem {V : Type} (k : string) (v : V) (d : dict V) : dict V :=
  match d with
  | [] => [(k, v)]
  | (k', v') :: d' =>
      if String.eqb k k' then (k', v) :: d' else (k', v') :: setitem k v d'
  end.

(** What makes an association list a dictionary. *)
Definition wf {V : Type} (d : dict V) : Prop := NoDup (keys d).

End PyDict.

(** ** [numpy.median] on a list of floats

    Numpy sorts a copy of the data (NaN after every number), takes the
    mean of the middle element for an odd size and of the two middle ones
    for an even size, and answers NaN when the data holds a NaN.  On
    empty data the mean runs over an empty slice: the answer is NaN,
    with a warning and no exception. *)

Module Numpy.

(** The order of numpy's sort: [<=] on numbers, NaN last. *)
Definition sort_leb (x y : float) : bool := leb x y || is_nan y.

Fixpoint insert (x : float) (l : list float) : list float :=
  match l with
  | [] => [x]
  | y :: l' => if sort_leb x y then x :: l else y :: insert x l'
  end.

Fixpoint sort (l : list float) : list float :=
  match l with
  | [] => []
  | x :: l' => insert x (sort l')
  end.

(** [l[i:j]] for [0 <= i <= j]. *)
Definition slice {A : Type} (l : list A) (i j : nat) : list A :=
  firstn (j - i) (skipn i l).

(** [numpy.mean]: the sum over the count.  The sum starts from [0.0]
    and adds the elements from left to right (numpy's summation of a
    slice of fewer than eight elements), so a lone [-0.0] sums to [0.0];
    the division is IEEE's and raises nothing, so the empty slice gives
    [0.0 / 0], a NaN. *)
Definition mean (xs : list float) : float :=
  div (fold_left add xs (of_Z 0)) (of_Z (Z.of_nat (List.length xs))).

Definition median (a : list float) : float :=
  let sz := List.length a in
  let part := sort a in
  let index := Nat.div sz 2 in
  let middle :=
    if Nat.odd sz then slice part index (index + 1)
    else slice part (index - 1) (index + 1) in
  let rout := mean middle in
  if Nat.ltb 0 sz && existsb is_nan part then nan else rout.

End Numpy.

(** ** The labelled table of [pandas.DataFrame] *)

Module Pandas.

Record DataFrame : Type := mkDataFrame {
  df_values : list (list float);
  df_index : list string;
  df_columns : list string
}.

Definition shape (df : DataFrame) : nat * nat :=
  (List.length (df_index df), List.length (df_columns df)).

(** [df.iloc[i, j]] *)
Definition cell (df : DataFrame) (i j : nat) : option float :=
  match nth_error (df_values df) i with
  | Some row => nth_error row j
  | None => None
  end.

(** [pd.DataFrame(data, index=..., columns=...)] on a list of rows:
    refused with [ValueError] when the labels do not fit the data. *)
Definition make (data : list (list float)) (index columns : list string)
  : result DataFrame :=
  if Nat.eqb (List.length data) (List.length index)
     && forallb (fun row => Nat.eqb (List.length row) (List.length columns)) data
  then Ok (mkDataFrame data index columns)
  else Raise ValueError.

End Pandas.

(** ** The format specification [.1%]

    Python multiplies the float by 100 (a float product), then prints it
    in fixed notation with one digit after the point, correctly rounded
    (ties to even on the exact binary value), and appends the percent
    sign. *)

Module PyFormat.

Definition string_of_nonneg (n : Z) : string :=
  NilZero.string_of_uint (N.to_uint (Z.to_N n)).

Definition round_half_even (num den : Z) : Z :=
  let q := num / den in
  let r := num mod den in
  match 2 * r ?= den with
  | Lt => q
  | Gt => q + 1
  | Eq => if Z.even q then q else q + 1
  end.

(** Tenths of [m * 2^e], rounded. *)
Definition tenths (m : positive) (e : Z) : Z :=
  if 0 <=? e then Zpos m * 2 ^ e * 10
  else round_half_even (Zpos m * 10) (2 ^ (- e)).

Definition fixed1 (m : positive) (e : Z) : string :=
  let n := tenths m e in
  (string_of_nonneg (n / 10) ++ "." ++ string_of_nonneg (n mod 10))%string.

Definition sign (s : bool) : string := (if s then "-" else EmptyString)%string.

(** [f'{x:.1%}'] *)
Definition percent1 (x : float) : string :=
  let val := mul x (of_Z 100) in
  match val with
  | S754_nan => "nan%"%string
  | S754_infinity s => (sign s ++ "inf%")%string
  | S754_zero s => (sign s ++ "0.0%")%string
  | S754_finite s m e => (sign s ++ fixed1 m e ++ "%")%string
  end.

End PyFormat.

(** ** The aggregate methods of [ImpliedPECalculator] *)

Module Aggregates.

Import PyDict.

Definition peer : Type := (float * float * float)%type.

Record industry_result : Type := mkIndustry {
  individual_multiples : dict float;
  median_pe : float
}.

(** The [for company, (price, eps, growth) in peer_data.items()] loop,
    on the remaining items and the dictionary built so far. *)
Fixpoint industry_loop (items : list (string * peer))
    (pe_multiples : dict float) : result (dict float) :=
  match items with
  | [] => Ok pe_multiples
  | (company, (price, eps, growth)) :: rest =>
      pe <- calculate_implied_pe price eps growth zero ;;
      industry_loop rest (setitem company pe pe_multiples)
  end.

(** [calculate_industry_implied_pe(self, peer_data)] *)
Definition calculate_industry_implied_pe (peer_data : dict peer)
  : result industry_result :=
  pe_multiples <- industry_loop peer_data [] ;;
  let median_pe := Numpy.median (values pe_multiples) in
  Ok (mkIndustry pe_multiples median_pe).

(** The inner [for payout in payout_ratios] loop, appending to [row]. *)
Fixpoint row_loop (current_price current_eps growth : float)
    (payout_ratios : list float) (row : list float) : result (list float) :=
  match payout_ratios with
  | [] => Ok row
  | payout :: rest =>
      pe <- calculate_implied_pe current_price current_eps growth payout ;;
      row_loop current_price current_eps growth rest (row ++ [pe])
  end.

(** The outer [for growth in growth_rates] loop, appending to the
    matrix. *)
Fixpoint matrix_loop (current_price current_eps : float)
    (growth_rates payout_ratios : list float)
    (sensitivity_matrix : list (list float)) : result (list (list float)) :=
  match growth_rates with
  | [] => Ok sensitivity_matrix
  | growth :: rest =>
      row <- row_loop current_price current_eps growth payout_ratios [] ;;
      matrix_loop current_price current_eps rest payout_ratios
        (sensitivity_matrix ++ [row])
  end.

(** [sensitivity_analysis(self, current_price, current_eps, growth_rates,
    payout_ratios)] *)
Definition sensitivity_analysis (current_price current_eps : float)
    (growth_rates payout_ratios : list float) : result Pandas.DataFrame :=
  sensitivity_matrix <-
    matrix_loop current_price current_eps growth_rates payout_ratios [] ;;
  Pandas.make sensitivity_matrix
    (map PyFormat.percent1 growth_rates)
    (map PyFormat.percent1 payout_ratios).

End Aggregates.

Import PyDict Aggregates.

(** * Vocabulary of the statements *)

(** The value of a multiple when the call returns one. *)
Definition multiple (price eps growth : float) : float :=
  div price (forward_eps eps growth).

Definition forward_eps_nonzero (eps growth : float) : Prop :=
  is_zero (forward_eps eps growth) = false.

(** The rows of the grid: one per growth rate, one cell per payout
    ratio. *)
Definition grid_rows (price eps : float) (growth_rates payout_ratios : list float)
  : list (list float) :=
  map (fun g => map (fun _ => multiple price eps g) payout_ratios) growth_rates.

Definition peer_forward_eps (kv : string * peer) : float :=
  let '(_, (_, eps, growth)) := kv in forward_eps eps growth.

Definition peer_multiple (kv : string * peer) : string * float :=
  let '(company, (price, eps, growth)) := kv in
  (company, multiple price eps growth).

(** An entry of the result stands for a peer: same identifier, and the
    value of the single-company call with payout ratio 0. *)
Definition peer_call_result (kv : string * peer) (out : string * float) : Prop :=
  fst out = fst kv /\
  let '(_, (price, eps, growth)) := kv in
  calculate_implied_pe price eps growth (of_Z 0) = Ok (snd out).

(** The representative of a float up to [==]: the two zeros are merged. *)
Definition canon (x : float) : float :=
  match x with
  | S754_zero _ => S754_zero false
  | _ => x
  end.

Definition sort_le (x y : float) : Prop := Numpy.sort_leb x y = true.

(** Numeric order, [x <= y]. *)
Definition numeric_le (x y : float) : Prop := leb x y = true.

(** The average of two floats as double arithmetic computes it:
    [(a + b) / 2], infinite when the sum overflows and NaN for two
    opposite infinities. *)
Definition float_average (a b : float) : float := div (add a b) (of_Z 2).

(** The median of values in numeric order, up to [==]: for an odd count a
    float equal to the middle value, for an even count a float that is
    the same number as the float average of the two middle values. *)
Definition middle_or_average (s : list float) (m : float) : Prop :=
  let n := List.length s in
  if Nat.odd n then
    exists x, nth_error s (Nat.div n 2) = Some x /\ eqb m x = true
  else exists a b,
      nth_error s (Nat.div n 2 - 1) = Some a /\
      nth_error s (Nat.div n 2) = Some b /\
      same_number m (float_average a b) = true.

Definition standard_median (vs : list float) (m : float) : Prop :=
  exists s,
    Permutation s vs /\ Sorted numeric_le s /\ middle_or_average s m.

(** The peers of the example run. *)
Definition example_peers : dict peer :=
  [("Company A"%string, (of_Z 100, of_Z 5, lit 10 100));
   ("Company B"%string, (of_Z 80, of_Z 4, lit 8 100));
   ("Company C"%string, (of_Z 120, of_Z 6, lit 12 100))].

(** Two peers whose multiples are [1e308] and [1.7e308]. *)
Definition overflow_peers : dict peer :=
  [("A"%string, (S754_finite false 5010420900022432 971, of_Z 1, of_Z 0));
   ("B"%string, (S754_finite false 8517715530038134 971, of_Z 1, of_Z 0))].

(** Three peers, the first with a NaN price. *)
Definition nan_peers : dict peer :=
  [("A"%string, (nan, of_Z 1, of_Z 0));
   ("B"%string, (of_Z 1, of_Z 1, of_Z 0));
   ("C"%string, (of_Z 2, of_Z 1, of_Z 0))].

(** ** Vocabulary of the further properties *)

(** [-x] on floats: the sign is flipped, NaN stays NaN. *)
Definition neg : float -> float := SFopp.

Definition is_inf (x : float) : bool :=
  match x with S754_infinity _ => true | _ => false end.

(** A function applied to the value a call returns, an exception passing
    through. *)
Definition result_map {A B : Type} (f : A -> B) (r : result A) : result B :=
  match r with
  | Ok a => Ok (f a)
  | Raise e => Raise e
  end.

(** [len(l) > 0] *)
Definition nonempty {A : Type} (l : list A) : bool :=
  match l with [] => false | _ :: _ => true end.

(** A peer whose price, EPS and [1 + growth] are all finite. *)
Definition finite_peer (kv : string * peer) : Prop :=
  let '(_, (price, eps, growth)) := kv in
  is_finite price = true /\ is_finite eps = true /\
  is_finite (add (of_Z 1) growth) = true.

Ltac compare_cases :=
  repeat match goal with
    | H : context [Z.compare ?a ?b] |- _ =>
        destruct (Z.compare_spec a b); subst
    | |- context [Z.compare ?a ?b] =>
        destruct (Z.compare_spec a b); subst
    | H : context [Pos.compare_cont Eq ?a ?b] |- _ =>
        change (Pos.compare_cont Eq a b) with (Pos.compare a b) in H
    | |- context [Pos.compare_cont Eq ?a ?b] =>
        change (Pos.compare_cont Eq a b) with (Pos.compare a b)
    | H : context [Pos.compare ?a ?b] |- _ =>
        destruct (Pos.compare_spec a b); subst
    | |- context [Pos.compare ?a ?b] =>
        destruct (Pos.compare_spec a b); subst
    end.

(** * Properties *)

(** ** The single-company formula *)

(** The whole behaviour of [calculate_implied_pe]: one zero test on the
    forward EPS, nothing else. *)
Lemma calculate_implied_pe_unfold (price eps growth payout : float) :
  calculate_implied_pe price eps growth payout =
  if is_zero (forward_eps eps growth)
  then Raise ZeroDivisionError
  else Ok (div price (forward_eps eps growth)).
Proof.
  unfold calculate_implied_pe, truediv, forward_eps, one.
  destruct (is_zero _); reflexivity.
Qed.

Lemma calculate_implied_pe_ok (price eps growth payout : float) :
  is_zero (forward_eps eps growth) = false ->
  calculate_implied_pe price eps growth payout =
  Ok (div price (forward_eps eps growth)).
Proof.
  intros Hnz. rewrite calculate_implied_pe_unfold, Hnz. reflexivity.
Qed.

Lemma calculate_implied_pe_raise (price eps growth payout : float) :
  is_zero (forward_eps eps growth) = true ->
  calculate_implied_pe price eps growth payout = Raise ZeroDivisionError.
Proof.
  intros Hz. rewrite calculate_implied_pe_unfold, Hz. reflexivity.
Qed.

(** The only exception [calculate_implied_pe] can raise. *)
Lemma calculate_implied_pe_exn (price eps growth payout : float) (e : exn) :
  calculate_implied_pe price eps growth payout = Raise e ->
  e = ZeroDivisionError /\ is_zero (forward_eps eps growth) = true.
Proof.
  rewrite calculate_implied_pe_unfold.
  destruct (is_zero _); intros H; inversion H; auto.
Qed.

(** With growth rate [-1] the forward EPS of a finite EPS is a zero. *)
Lemma forward_eps_minus_one (eps : float) :
  is_finite eps = true -> is_zero (forward_eps eps (of_Z (-1))) = true.
Proof.
  unfold forward_eps.
  replace (add (of_Z 1) (of_Z (-1))) with (S754_zero false) by reflexivity.
  destruct eps; simpl; intros H; try discriminate; reflexivity.
Qed.

(** C1: whenever the forward EPS [eps * (1 + growth_rate)] is nonzero,
    [calculate_implied_pe] returns the price divided by that forward EPS,
    whatever the payout ratio. *)
Theorem implied_pe_is_price_over_forward_eps
    (price eps growth_rate payout_ratio : float) :
  is_zero (mul eps (add (of_Z 1) growth_rate)) = false ->
  calculate_implied_pe price eps growth_rate payout_ratio =
  Ok (div price (mul eps (add (of_Z 1) growth_rate))).
Proof.
  intros Hnz. apply calculate_implied_pe_ok. exact Hnz.
Qed.

(** [implied_pe(100, 5, 0.10)] is the double [100 / 5.5]. *)
Lemma implied_pe_is_price_over_forward_eps_witness :
  is_zero (mul (of_Z 5) (add (of_Z 1) (lit 10 100))) = false /\
  calculate_implied_pe (of_Z 100) (of_Z 5) (lit 10 100) (lit 30 100) =
  Ok (div (of_Z 100) (mul (of_Z 5) (add (of_Z 1) (lit 10 100)))).
Proof.
  split.
  - vm_compute. reflexivity.
  - apply (implied_pe_is_price_over_forward_eps
             (of_Z 100) (of_Z 5) (lit 10 100) (lit 30 100)).
    vm_compute. reflexivity.
Defined.

(** C5, as amended: for every finite EPS and every price, the call with
    growth rate [-1] raises [ZeroDivisionError], and so does every call
    whose forward EPS is a zero; nothing recovers from it. *)
Theorem implied_pe_zero_forward_eps_raises
    (price eps growth_rate payout_ratio : float) :
  (growth_rate = of_Z (-1) /\ is_finite eps = true) \/
  is_zero (forward_eps eps growth_rate) = true ->
  calculate_implied_pe price eps growth_rate payout_ratio =
  Raise ZeroDivisionError.
Proof.
  intros [[-> Hfin] | Hz]; apply calculate_implied_pe_raise.
  - apply forward_eps_minus_one. exact Hfin.
  - exact Hz.
Qed.

Lemma implied_pe_zero_forward_eps_raises_witness :
  ((of_Z (-1) = of_Z (-1) /\ is_finite (of_Z 5) = true) \/
   is_zero (forward_eps (of_Z 5) (of_Z (-1))) = true) /\
  calculate_implied_pe (of_Z 100) (of_Z 5) (of_Z (-1)) zero =
  Raise ZeroDivisionError.
Proof.
  split.
  - left. split; reflexivity.
  - apply (implied_pe_zero_forward_eps_raises
             (of_Z 100) (of_Z 5) (of_Z (-1)) zero).
    left. split; reflexivity.
Defined.

(** C5 as stated fails: an infinite EPS is nonzero, yet with growth rate
    [-1] its forward EPS is [inf * 0.0], a NaN, which is not a zero:
    the call returns NaN. *)
Lemma implied_pe_minus_one_infinite_eps :
  is_zero inf = false /\
  calculate_implied_pe (of_Z 1) inf (of_Z (-1)) zero = Ok nan /\
  ~ (forall price eps : float,
        is_zero eps = false ->
        calculate_implied_pe price eps (of_Z (-1)) zero =
        Raise ZeroDivisionError).
Proof.
  split; [reflexivity | split; [reflexivity |]].
  intros H. specialize (H (of_Z 1) inf eq_refl).
  vm_compute in H. discriminate H.
Qed.

(** C6: with a nonzero forward EPS, any two payout ratios give the same
    successful result. *)
Theorem implied_pe_ignores_payout_ratio (price eps growth_rate p1 p2 : float) :
  is_zero (forward_eps eps growth_rate) = false ->
  calculate_implied_pe price eps growth_rate p1 =
  calculate_implied_pe price eps growth_rate p2 /\
  exists v, calculate_implied_pe price eps growth_rate p1 = Ok v.
Proof.
  intros Hnz.
  rewrite !(calculate_implied_pe_ok _ _ _ _ Hnz).
  split; [reflexivity | eexists; reflexivity].
Qed.

Lemma implied_pe_ignores_payout_ratio_witness :
  is_zero (forward_eps (of_Z 5) (lit 10 100)) = false /\
  calculate_implied_pe (of_Z 100) (of_Z 5) (lit 10 100) (lit 30 100) =
  calculate_implied_pe (of_Z 100) (of_Z 5) (lit 10 100) (lit 90 100).
Proof.
  split.
  - vm_compute. reflexivity.
  - apply (implied_pe_ignores_payout_ratio
             (of_Z 100) (of_Z 5) (lit 10 100) (lit 30 100) (lit 90 100)).
    vm_compute. reflexivity.
Defined.

(** C10: no sign or magnitude is checked.  With a nonzero forward EPS the
    call returns the quotient and raises nothing, for negative prices,
    negative EPS and growth rates below [-1] like for any other input. *)
Theorem implied_pe_no_validation (price eps growth_rate payout_ratio : float) :
  is_zero (forward_eps eps growth_rate) = false ->
  calculate_implied_pe price eps growth_rate payout_ratio =
  Ok (div price (forward_eps eps growth_rate)) /\
  forall e, calculate_implied_pe price eps growth_rate payout_ratio <> Raise e.
Proof.
  intros Hnz. rewrite (calculate_implied_pe_ok _ _ _ _ Hnz).
  split; [reflexivity | intros e H; discriminate H].
Qed.

(** Price [-100], EPS [-5], growth rate [-3]: forward EPS [10], result
    [-10]. *)
Lemma implied_pe_no_validation_witness :
  is_zero (forward_eps (of_Z (-5)) (of_Z (-3))) = false /\
  calculate_implied_pe (of_Z (-100)) (of_Z (-5)) (of_Z (-3)) zero =
  Ok (of_Z (-10)).
Proof.
  split.
  - vm_compute. reflexivity.
  - destruct (implied_pe_no_validation
                (of_Z (-100)) (of_Z (-5)) (of_Z (-3)) zero) as [H _].
    + vm_compute. reflexivity.
    + rewrite H. vm_compute. reflexivity.
Defined.

(** [implied_pe(100, 5, 0.10)] is [100 / 5.5], the double
    [0x1.22e8ba2e8ba2fp+4], about 18.18. *)
Example implied_pe_example :
  calculate_implied_pe (of_Z 100) (of_Z 5) (lit 10 100) zero =
  Ok (div (of_Z 100) (lit 55 10)) /\
  div (of_Z 100) (lit 55 10) = S754_finite false 5117726849284655 (-48).
Proof. split; vm_compute; reflexivity. Qed.

(** A forward EPS that underflows is a zero as well: [5e-324 * 0.5]. *)
Example implied_pe_underflow :
  calculate_implied_pe (of_Z 1) (S754_finite false 1 (-1074)) (lit (-1) 2) zero =
  Raise ZeroDivisionError.
Proof. vm_compute. reflexivity. Qed.

(** ** The sensitivity grid *)

Lemma row_loop_ok (price eps growth : float) (payout_ratios : list float) :
  forward_eps_nonzero eps growth ->
  forall row,
    row_loop price eps growth payout_ratios row =
    Ok (row ++ map (fun _ => multiple price eps growth) payout_ratios).
Proof.
  intros Hnz. induction payout_ratios as [| payout rest IH]; intros row; simpl.
  - rewrite app_nil_r. reflexivity.
  - rewrite (calculate_implied_pe_ok _ _ _ _ Hnz). simpl.
    rewrite IH, <- app_assoc. reflexivity.
Qed.

Lemma matrix_loop_ok (price eps : float) (growth_rates payout_ratios : list float) :
  Forall (forward_eps_nonzero eps) growth_rates ->
  forall m,
    matrix_loop price eps growth_rates payout_ratios m =
    Ok (m ++ grid_rows price eps growth_rates payout_ratios).
Proof.
  induction 1 as [| growth rest Hnz _ IH]; intros m; simpl.
  - rewrite app_nil_r. reflexivity.
  - rewrite (row_loop_ok _ _ _ _ Hnz). simpl.
    rewrite IH, <- app_assoc. reflexivity.
Qed.

Lemma make_ok (data : list (list float)) (index columns : list string) :
  List.length data = List.length index ->
  Forall (fun row => List.length row = List.length columns) data ->
  Pandas.make data index columns = Ok (Pandas.mkDataFrame data index columns).
Proof.
  intros Hlen Hrows. unfold Pandas.make.
  rewrite Hlen, Nat.eqb_refl. simpl.
  replace (forallb _ data) with true; [reflexivity |].
  symmetry. apply forallb_forall. intros row Hin.
  apply Nat.eqb_eq. rewrite Forall_forall in Hrows. auto.
Qed.

Lemma make_labels (data : list (list float)) (index columns : list string)
    (df : Pandas.DataFrame) :
  Pandas.make data index columns = Ok df ->
  Pandas.df_values df = data /\
  Pandas.df_index df = index /\ Pandas.df_columns df = columns.
Proof.
  unfold Pandas.make. destruct (_ && _); intros H; inversion H; subst.
  simpl. auto.
Qed.

Lemma grid_rows_width (price eps : float) (growth_rates payout_ratios : list float) :
  Forall (fun row => List.length row = List.length payout_ratios)
         (grid_rows price eps growth_rates payout_ratios).
Proof.
  unfold grid_rows. apply Forall_forall. intros row Hin.
  apply in_map_iff in Hin. destruct Hin as [g [<- _]].
  apply length_map.
Qed.

Lemma sensitivity_analysis_ok (price eps : float)
    (growth_rates payout_ratios : list float) :
  Forall (forward_eps_nonzero eps) growth_rates ->
  sensitivity_analysis price eps growth_rates payout_ratios =
  Ok (Pandas.mkDataFrame
        (grid_rows price eps growth_rates payout_ratios)
        (map PyFormat.percent1 growth_rates)
        (map PyFormat.percent1 payout_ratios)).
Proof.
  intros Hnz. unfold sensitivity_analysis.
  rewrite (matrix_loop_ok _ _ _ _ Hnz). simpl.
  apply make_ok.
  - unfold grid_rows. rewrite !length_map. reflexivity.
  - rewrite length_map. apply grid_rows_width.
Qed.

(** C3, as amended: when the forward EPS of every growth rate is nonzero,
    the grid has one row per growth rate and one column per payout ratio,
    positions kept and nothing merged, and the cell at row [i], column [j]
    is the value of [calculate_implied_pe] at the [i]-th growth rate and
    the [j]-th payout ratio. *)
Theorem sensitivity_grid_dense (price eps : float)
    (growth_rates payout_ratios : list float) :
  Forall (fun g => is_zero (forward_eps eps g) = false) growth_rates ->
  exists df,
    sensitivity_analysis price eps growth_rates payout_ratios = Ok df /\
    Pandas.shape df = (List.length growth_rates, List.length payout_ratios) /\
    List.length (Pandas.df_values df) = List.length growth_rates /\
    Forall (fun row => List.length row = List.length payout_ratios)
           (Pandas.df_values df) /\
    forall i j g p,
      nth_error growth_rates i = Some g ->
      nth_error payout_ratios j = Some p ->
      exists v, Pandas.cell df i j = Some v /\
                calculate_implied_pe price eps g p = Ok v.
Proof.
  intros Hnz. eexists. split; [apply sensitivity_analysis_ok; exact Hnz |].
  unfold Pandas.shape, Pandas.cell. simpl.
  split; [| split; [| split]].
  - rewrite !length_map. reflexivity.
  - unfold grid_rows. apply length_map.
  - apply grid_rows_width.
  - intros i j g p Hg Hp. exists (multiple price eps g).
    unfold grid_rows. rewrite nth_error_map, Hg. simpl.
    rewrite nth_error_map, Hp. simpl. split; [reflexivity |].
    apply calculate_implied_pe_ok.
    rewrite Forall_forall in Hnz. apply Hnz.
    eapply nth_error_In. exact Hg.
Qed.

(** A grid with a repeated growth rate and a repeated payout ratio keeps
    every row and column. *)
Lemma sensitivity_grid_dense_witness :
  Forall (fun g => is_zero (forward_eps (of_Z 5) g) = false)
         [lit 10 100; lit 10 100] /\
  exists df,
    sensitivity_analysis (of_Z 100) (of_Z 5)
      [lit 10 100; lit 10 100] [lit 20 100; lit 20 100; lit 30 100] = Ok df /\
    Pandas.shape df = (2%nat, 3%nat).
Proof.
  assert (Hnz : Forall (fun g => is_zero (forward_eps (of_Z 5) g) = false)
                       [lit 10 100; lit 10 100]).
  { repeat constructor. }
  split; [exact Hnz |].
  destruct (sensitivity_grid_dense (of_Z 100) (of_Z 5)
              [lit 10 100; lit 10 100] [lit 20 100; lit 20 100; lit 30 100] Hnz)
    as [df [Hdf [Hshape _]]].
  exists df. split; [exact Hdf | exact Hshape].
Defined.

(** C3 as stated fails: a growth rate of [-1] makes the first cell raise,
    and no table is returned. *)
Lemma sensitivity_grid_growth_minus_one :
  sensitivity_analysis (of_Z 100) (of_Z 5) [lit 10 100; of_Z (-1)] [lit 20 100] =
  Raise ZeroDivisionError /\
  ~ exists df,
      sensitivity_analysis (of_Z 100) (of_Z 5)
        [lit 10 100; of_Z (-1)] [lit 20 100] = Ok df.
Proof.
  assert (H : sensitivity_analysis (of_Z 100) (of_Z 5)
                [lit 10 100; of_Z (-1)] [lit 20 100] = Raise ZeroDivisionError)
    by (vm_compute; reflexivity).
  split; [exact H |]. intros [df Hdf]. rewrite H in Hdf. discriminate Hdf.
Qed.

(** C9: the row labels of a returned grid are the growth rates under the
    format [.1%], the column labels the payout ratios under the same
    format, both in input order; [0.10] is printed as [10.0%]. *)
Theorem sensitivity_grid_labels (price eps : float)
    (growth_rates payout_ratios : list float) (df : Pandas.DataFrame) :
  sensitivity_analysis price eps growth_rates payout_ratios = Ok df ->
  Pandas.df_index df = map PyFormat.percent1 growth_rates /\
  Pandas.df_columns df = map PyFormat.percent1 payout_ratios /\
  PyFormat.percent1 (lit 10 100) = "10.0%"%string.
Proof.
  unfold sensitivity_analysis. intros H.
  destruct (matrix_loop price eps growth_rates payout_ratios []) as [m | e];
    simpl in H; [| discriminate H].
  apply make_labels in H. destruct H as [_ [Hi Hc]].
  split; [exact Hi | split; [exact Hc | vm_compute; reflexivity]].
Qed.

(** The format [.1%] on a few floats: rounding is to the nearest tenth
    of a percent with ties to even on the exact binary value, the sign of
    a negative zero is kept, and NaN and the infinities are spelled
    out. *)
Example percent1_examples :
  map PyFormat.percent1
    [lit 5 100; lit 25 10000; lit 35 10000; lit (-123456) 1000;
     S754_zero true; lit (-1) 10000; nan; inf] =
  ["5.0%"; "0.2%"; "0.4%"; "-12345.6%"; "-0.0%"; "-0.0%"; "nan%"; "inf%"]%string.
Proof. vm_compute. reflexivity. Qed.

(** The grid of the example run: growth rates 5%, 10%, 15%, 20% against
    payout ratios 20%, 30%, 40%, 50%. *)
Lemma sensitivity_grid_labels_witness :
  exists df,
    sensitivity_analysis (of_Z 100) (of_Z 5)
      [lit 5 100; lit 10 100; lit 15 100; lit 20 100]
      [lit 20 100; lit 30 100; lit 40 100; lit 50 100] = Ok df /\
    Pandas.df_index df = ["5.0%"; "10.0%"; "15.0%"; "20.0%"]%string /\
    Pandas.df_columns df = ["20.0%"; "30.0%"; "40.0%"; "50.0%"]%string.
Proof.
  destruct (sensitivity_analysis (of_Z 100) (of_Z 5)
              [lit 5 100; lit 10 100; lit 15 100; lit 20 100]
              [lit 20 100; lit 30 100; lit 40 100; lit 50 100])
    as [df | e] eqn:Hrun.
  - exists df. split; [reflexivity |].
    destruct (sensitivity_grid_labels _ _ _ _ _ Hrun) as [Hi [Hc _]].
    rewrite Hi, Hc. split; vm_compute; reflexivity.
  - vm_compute in Hrun. discriminate Hrun.
Defined.

(** ** The industry aggregate *)

Lemma industry_loop_raise (items : list (string * peer)) :
  Exists (fun kv => is_zero (peer_forward_eps kv) = true) items ->
  forall pe_multiples,
    industry_loop items pe_multiples = Raise ZeroDivisionError.
Proof.
  induction 1 as [[company [[price eps] growth]] rest Hz
                 | [company [[price eps] growth]] rest _ IH];
    intros acc; simpl in *.
  - rewrite (calculate_implied_pe_raise _ _ _ _ Hz). reflexivity.
  - rewrite calculate_implied_pe_unfold.
    destruct (is_zero _); simpl; [reflexivity | apply IH].
Qed.

(** C8: a peer mapping with at least one peer whose forward EPS is a zero
    makes the whole call raise [ZeroDivisionError]; no result, partial or
    other, is returned. *)
Theorem industry_zero_forward_eps_raises (peer_data : dict peer) :
  Exists (fun kv => is_zero (peer_forward_eps kv) = true) peer_data ->
  calculate_industry_implied_pe peer_data = Raise ZeroDivisionError /\
  forall r, calculate_industry_implied_pe peer_data <> Ok r.
Proof.
  intros Hz. unfold calculate_industry_implied_pe.
  rewrite (industry_loop_raise _ Hz). simpl.
  split; [reflexivity | intros r H; discriminate H].
Qed.

(** Two sound peers around one with zero EPS. *)
Lemma industry_zero_forward_eps_raises_witness :
  calculate_industry_implied_pe
    [("A"%string, (of_Z 100, of_Z 5, lit 10 100));
     ("B"%string, (of_Z 80, of_Z 0, lit 8 100));
     ("C"%string, (of_Z 120, of_Z 6, lit 12 100))] =
  Raise ZeroDivisionError.
Proof.
  apply (industry_zero_forward_eps_raises
           [("A"%string, (of_Z 100, of_Z 5, lit 10 100));
            ("B"%string, (of_Z 80, of_Z 0, lit 8 100));
            ("C"%string, (of_Z 120, of_Z 6, lit 12 100))]).
  apply Exists_cons_tl. apply Exists_cons_hd. vm_compute. reflexivity.
Defined.

(** C2, as amended: on the empty peer mapping the call raises nothing; it
    returns the empty mapping of multiples together with NaN, numpy's
    median of no data. *)
Theorem industry_empty_returns_nan :
  calculate_industry_implied_pe [] = Ok (mkIndustry [] nan).
Proof. reflexivity. Qed.

(** C2 as stated fails: there is no exception on the empty mapping. *)
Lemma industry_empty_does_not_raise :
  ~ exists e, calculate_industry_implied_pe [] = Raise e.
Proof.
  intros [e H]. vm_compute in H. discriminate H.
Qed.

(** ** Order facts on floats *)

Lemma canon_idem (x : float) : canon (canon x) = canon x.
Proof. destruct x; reflexivity. Qed.

Lemma is_nan_canon (x : float) : is_nan (canon x) = is_nan x.
Proof. destruct x; reflexivity. Qed.

Lemma SFcompare_canon (x y : float) :
  SFcompare (canon x) (canon y) = SFcompare x y.
Proof. destruct x, y; reflexivity. Qed.

Lemma sort_leb_canon (x y : float) :
  Numpy.sort_leb (canon x) (canon y) = Numpy.sort_leb x y.
Proof.
  unfold Numpy.sort_leb, leb, SFleb.
  rewrite SFcompare_canon, is_nan_canon. reflexivity.
Qed.

Lemma sort_leb_total (x y : float) :
  Numpy.sort_leb x y = true \/ Numpy.sort_leb y x = true.
Proof.
  unfold Numpy.sort_leb, leb, SFleb, SFcompare.
  destruct x as [sx | sx | | sx mx ex], y as [sy | sy | | sy my ey];
    try destruct sx; try destruct sy; simpl; auto;
    compare_cases; simpl; auto; lia.
Qed.

Lemma sort_leb_trans (x y z : float) :
  Numpy.sort_leb x y = true -> Numpy.sort_leb y z = true ->
  Numpy.sort_leb x z = true.
Proof.
  unfold Numpy.sort_leb, leb, SFleb, SFcompare.
  destruct x as [sx | sx | | sx mx ex], y as [sy | sy | | sy my ey],
           z as [sz | sz | | sz mz ez];
    try destruct sx; try destruct sy; try destruct sz; simpl;
    try (intros; reflexivity); try (intros; discriminate);
    compare_cases; simpl; intros; try reflexivity; try discriminate; lia.
Qed.

Lemma sort_leb_antisym (x y : float) :
  Numpy.sort_leb x y = true -> Numpy.sort_leb y x = true ->
  canon x = canon y.
Proof.
  unfold Numpy.sort_leb, leb, SFleb, SFcompare.
  destruct x as [sx | sx | | sx mx ex], y as [sy | sy | | sy my ey];
    try destruct sx; try destruct sy; simpl;
    try (intros; reflexivity); try (intros; discriminate);
    compare_cases; simpl; intros; try reflexivity; try discriminate; lia.
Qed.

(** ** The sort of [numpy.median] *)

Lemma insert_perm (x : float) (l : list float) :
  Permutation (x :: l) (Numpy.insert x l).
Proof.
  induction l as [| y l IH]; simpl.
  - apply Permutation_refl.
  - destruct (Numpy.sort_leb x y).
    + apply Permutation_refl.
    + eapply perm_trans; [apply perm_swap |].
      apply perm_skip. exact IH.
Qed.

Lemma sort_perm (l : list float) : Permutation l (Numpy.sort l).
Proof.
  induction l as [| x l IH]; simpl.
  - apply perm_nil.
  - eapply perm_trans; [apply perm_skip; exact IH | apply insert_perm].
Qed.

Lemma insert_sorted (x : float) (l : list float) :
  StronglySorted sort_le l -> StronglySorted sort_le (Numpy.insert x l).
Proof.
  induction 1 as [| y l Hs IH Hy]; simpl.
  - repeat constructor.
  - destruct (Numpy.sort_leb x y) eqn:Hxy.
    + constructor; [constructor; assumption |].
      constructor; [exact Hxy |].
      eapply Forall_impl; [| exact Hy].
      intros z Hz. eapply sort_leb_trans; eassumption.
    + constructor; [exact IH |].
      assert (Hyx : sort_le y x).
      { destruct (sort_leb_total x y) as [H | H]; [congruence | exact H]. }
      eapply Permutation_Forall; [apply insert_perm |].
      constructor; assumption.
Qed.

Lemma sort_sorted (l : list float) : StronglySorted sort_le (Numpy.sort l).
Proof.
  induction l as [| x l IH]; simpl.
  - constructor.
  - apply insert_sorted. exact IH.
Qed.

Lemma insert_canon (x : float) (l : list float) :
  map canon (Numpy.insert x l) = Numpy.insert (canon x) (map canon l).
Proof.
  induction l as [| y l IH]; simpl.
  - reflexivity.
  - rewrite sort_leb_canon. destruct (Numpy.sort_leb x y); simpl.
    + reflexivity.
    + rewrite IH. reflexivity.
Qed.

Lemma sort_canon (l : list float) :
  map canon (Numpy.sort l) = Numpy.sort (map canon l).
Proof.
  induction l as [| x l IH]; simpl.
  - reflexivity.
  - rewrite insert_canon, IH. reflexivity.
Qed.

(** Two sorted arrangements of the same canonical values are the same
    list. *)
Lemma sorted_perm_unique (l1 : list float) :
  forall l2,
    Forall (fun x => canon x = x) l1 ->
    StronglySorted sort_le l1 -> StronglySorted sort_le l2 ->
    Permutation l1 l2 -> l1 = l2.
Proof.
  induction l1 as [| a l1 IH]; intros l2 Hc Hs1 Hs2 Hp.
  - apply Permutation_nil in Hp. congruence.
  - destruct l2 as [| b l2].
    + apply Permutation_sym, Permutation_nil in Hp. discriminate Hp.
    + assert (Hc2 : Forall (fun x => canon x = x) (b :: l2)).
      { eapply Permutation_Forall; eassumption. }
      inversion Hc as [| ? ? Ha Hc1]; subst.
      inversion Hc2 as [| ? ? Hb Hc2']; subst.
      inversion Hs1 as [| ? ? Hs1' Hall1]; subst.
      inversion Hs2 as [| ? ? Hs2' Hall2]; subst.
      assert (Hab : a = b).
      { assert (Hin1 : In b (a :: l1)).
        { eapply Permutation_in; [apply Permutation_sym; exact Hp | left; reflexivity]. }
        assert (Hin2 : In a (b :: l2)).
        { eapply Permutation_in; [exact Hp | left; reflexivity]. }
        destruct Hin1 as [-> | Hin1]; [reflexivity |].
        destruct Hin2 as [-> | Hin2]; [reflexivity |].
        rewrite Forall_forall in Hall1, Hall2.
        rewrite <- Ha, <- Hb.
        apply sort_leb_antisym; [apply Hall1 | apply Hall2]; assumption. }
      subst b. f_equal.
      apply IH; try assumption.
      eapply Permutation_cons_inv. exact Hp.
Qed.

Lemma sort_perm_canon (l1 l2 : list float) :
  Permutation l1 l2 ->
  map canon (Numpy.sort l1) = map canon (Numpy.sort l2).
Proof.
  intros Hp. rewrite !sort_canon.
  apply sorted_perm_unique.
  - eapply Permutation_Forall; [apply sort_perm |].
    apply Forall_forall. intros x Hin.
    apply in_map_iff in Hin. destruct Hin as [y [<- _]]. apply canon_idem.
  - apply sort_sorted.
  - apply sort_sorted.
  - eapply perm_trans; [apply Permutation_sym, sort_perm |].
    eapply perm_trans; [| apply sort_perm].
    apply Permutation_map. exact Hp.
Qed.

(** ** Arithmetic up to the sign of zero *)

Lemma canon_eq_cases (x y : float) :
  canon x = canon y ->
  x = y \/ (is_zero x = true /\ is_zero y = true).
Proof.
  destruct x, y; simpl; intros H; try discriminate H; auto.
Qed.

Lemma add_zero_zero (x y : float) :
  is_zero x = true -> is_zero y = true -> is_zero (add x y) = true.
Proof.
  destruct x as [[] | | |], y as [[] | | |]; simpl; intros; try discriminate;
    reflexivity.
Qed.

Lemma add_zero_l (x y : float) :
  is_zero x = true -> is_zero y = false -> add x y = y.
Proof.
  destruct x as [[] | | |], y as [[] | | |]; simpl; intros; try discriminate;
    reflexivity.
Qed.

Lemma add_zero_r (x y : float) :
  is_zero x = false -> is_zero y = true -> add x y = x.
Proof.
  destruct x as [[] | | |], y as [[] | | |]; simpl; intros; try discriminate;
    reflexivity.
Qed.

Lemma is_zero_canon_eq (x y : float) :
  is_zero x = true -> is_zero y = true -> canon x = canon y.
Proof.
  destruct x, y; simpl; intros; try discriminate; reflexivity.
Qed.

Lemma add_canon (a a' b b' : float) :
  canon a = canon a' -> canon b = canon b' ->
  canon (add a b) = canon (add a' b').
Proof.
  intros Ha Hb.
  destruct (canon_eq_cases _ _ Ha) as [-> | [Za Za']];
    destruct (canon_eq_cases _ _ Hb) as [-> | [Zb Zb']].
  - reflexivity.
  - destruct (is_zero a') eqn:Za'.
    + apply is_zero_canon_eq; apply add_zero_zero; assumption.
    + rewrite !add_zero_r by assumption. reflexivity.
  - destruct (is_zero b') eqn:Zb'.
    + apply is_zero_canon_eq; apply add_zero_zero; assumption.
    + rewrite !add_zero_l by assumption. reflexivity.
  - apply is_zero_canon_eq; apply add_zero_zero; assumption.
Qed.

Lemma div_canon (a a' y : float) :
  canon a = canon a' -> canon (div a y) = canon (div a' y).
Proof.
  intros Ha. destruct (canon_eq_cases _ _ Ha) as [-> | [Za Za']].
  - reflexivity.
  - destruct a as [sa | | |], a' as [sa' | | |]; try discriminate.
    destruct y as [sy | sy | | sy my ey]; reflexivity.
Qed.

Lemma fold_add_canon (r r' : list float) :
  map canon r = map canon r' ->
  forall x x', canon x = canon x' ->
    canon (fold_left add r x) = canon (fold_left add r' x').
Proof.
  revert r'. induction r as [| y r IH]; intros [| y' r'] Hr x x' Hx;
    simpl in *; try discriminate Hr.
  - exact Hx.
  - inversion Hr. apply IH; [assumption |]. apply add_canon; assumption.
Qed.

Lemma mean_canon (xs ys : list float) :
  map canon xs = map canon ys ->
  canon (Numpy.mean xs) = canon (Numpy.mean ys).
Proof.
  intros H.
  assert (Hlen : List.length xs = List.length ys).
  { rewrite <- (length_map canon xs), H. apply length_map. }
  unfold Numpy.mean. rewrite Hlen.
  apply div_canon. apply fold_add_canon; [exact H | reflexivity].
Qed.

Lemma eqb_refl_number (x : float) : is_nan x = false -> eqb x x = true.
Proof.
  unfold eqb, SFeqb, SFcompare.
  destruct x as [sx | sx | | sx mx ex]; try destruct sx; simpl;
    intros; try discriminate; try reflexivity;
    rewrite Z.compare_refl, Pos.compare_cont_refl; reflexivity.
Qed.

Lemma canon_same_number (x y : float) :
  canon x = canon y -> same_number x y = true.
Proof.
  intros H. unfold same_number.
  destruct (canon_eq_cases _ _ H) as [-> | [Zx Zy]].
  - destruct (is_nan y) eqn:Hn.
    + simpl. apply orb_true_r.
    + rewrite eqb_refl_number by assumption. reflexivity.
  - destruct x, y; try discriminate. reflexivity.
Qed.

Lemma existsb_is_nan_canon (l : list float) :
  existsb is_nan (map canon l) = existsb is_nan l.
Proof.
  induction l as [| x l IH]; simpl.
  - reflexivity.
  - rewrite is_nan_canon, IH. reflexivity.
Qed.

Lemma slice_map {A B : Type} (f : A -> B) (l : list A) (i j : nat) :
  map f (Numpy.slice l i j) = Numpy.slice (map f l) i j.
Proof.
  unfold Numpy.slice. rewrite skipn_map, firstn_map. reflexivity.
Qed.

(** The median depends on the data only through its multiset, up to the
    sign of zero. *)
Lemma median_perm_canon (l1 l2 : list float) :
  Permutation l1 l2 ->
  canon (Numpy.median l1) = canon (Numpy.median l2).
Proof.
  intros Hp. unfold Numpy.median.
  pose proof (sort_perm_canon _ _ Hp) as Hs.
  rewrite <- (Permutation_length Hp).
  rewrite <- (existsb_is_nan_canon (Numpy.sort l1)),
          <- (existsb_is_nan_canon (Numpy.sort l2)), Hs.
  destruct (_ && _); [reflexivity |].
  apply mean_canon.
  destruct (Nat.odd _); rewrite !slice_map, Hs; reflexivity.
Qed.

(** ** The dictionary of multiples *)

Lemma setitem_fresh {V : Type} (k : string) (v : V) (d : dict V) :
  ~ In k (keys d) -> setitem k v d = d ++ [(k, v)].
Proof.
  induction d as [| [k' v'] d IH]; simpl; intros Hk.
  - reflexivity.
  - destruct (String.eqb_spec k k') as [-> | Hne].
    + exfalso. apply Hk. left. reflexivity.
    + rewrite IH; [reflexivity |]. intros Hin. apply Hk. right. exact Hin.
Qed.

Lemma keys_app {V : Type} (d1 d2 : dict V) :
  keys (d1 ++ d2) = keys d1 ++ keys d2.
Proof. unfold keys. apply map_app. Qed.

Lemma industry_loop_ok (items : list (string * peer)) :
  NoDup (keys items) ->
  Forall (fun kv => is_zero (peer_forward_eps kv) = false) items ->
  forall pe_multiples,
    (forall k, In k (keys items) -> ~ In k (keys pe_multiples)) ->
    industry_loop items pe_multiples =
    Ok (pe_multiples ++ map peer_multiple items).
Proof.
  induction items as [| [company [[price eps] growth]] rest IH];
    intros Hnd Hnz acc Hfresh; simpl in *.
  - rewrite app_nil_r. reflexivity.
  - inversion Hnd as [| ? ? Hnotin Hnd']; subst.
    inversion Hnz as [| ? ? Hhd Hnz']; subst. simpl in Hhd.
    rewrite (calculate_implied_pe_ok _ _ _ _ Hhd). simpl.
    rewrite setitem_fresh by (apply Hfresh; left; reflexivity).
    rewrite IH; try assumption.
    + rewrite <- app_assoc. reflexivity.
    + intros k Hin. rewrite keys_app. simpl. intros Hin'.
      apply in_app_or in Hin'. destruct Hin' as [Hin' | [<- | []]].
      * apply (Hfresh k); [right; exact Hin | exact Hin'].
      * apply Hnotin. exact Hin.
Qed.

Lemma calculate_industry_implied_pe_ok (peer_data : dict peer) :
  wf peer_data ->
  Forall (fun kv => is_zero (peer_forward_eps kv) = false) peer_data ->
  calculate_industry_implied_pe peer_data =
  Ok (mkIndustry (map peer_multiple peer_data)
        (Numpy.median (values (map peer_multiple peer_data)))).
Proof.
  intros Hwf Hnz. unfold calculate_industry_implied_pe.
  rewrite (industry_loop_ok _ Hwf Hnz []) by (intros k _ []).
  reflexivity.
Qed.

(** ** Doubles

    A quotient is always a double in canonical form, and dividing a
    double by [1.0] returns it unchanged. *)

Lemma fexp_eq (z : Z) : fexp prec emax z = Z.max (z - 53) (-1074).
Proof. reflexivity. Qed.

Lemma digits2_pos_size (p : positive) : digits2_pos p = Pos.size p.
Proof. induction p; simpl; congruence. Qed.

Lemma Zdigits2_log2 (m : Z) : 0 < m -> Zdigits2 m = Z.log2 m + 1.
Proof.
  destruct m as [| p | p]; try lia. intros _. simpl.
  destruct p; simpl; rewrite ?digits2_pos_size; lia.
Qed.

Lemma Zdigits2_nonneg (m : Z) : 0 <= Zdigits2 m.
Proof. destruct m; simpl; lia. Qed.

Lemma Zdigits2_mono (m n : Z) : 0 <= m <= n -> Zdigits2 m <= Zdigits2 n.
Proof.
  intros [Hm Hmn]. destruct (Z.eq_dec m 0) as [-> | Hne].
  - apply Zdigits2_nonneg.
  - rewrite !Zdigits2_log2 by lia.
    pose proof (Z.log2_le_mono m n Hmn). lia.
Qed.

Lemma shr_1_m (mrs : shr_record) :
  0 <= shr_m mrs -> shr_m (shr_1 mrs) = Z.shiftr (shr_m mrs) 1.
Proof.
  destruct mrs as [m r s]. cbn [shr_m]. intros H.
  rewrite Z.shiftr_div_pow2 by lia. change (2 ^ 1) with 2.
  destruct m as [| [p | p |] | p]; cbn [shr_1 shr_m]; try lia.
  - reflexivity.
  - apply Z.div_unique with (r := 1); lia.
  - apply Z.div_unique with (r := 0); lia.
  - reflexivity.
Qed.

Lemma shr_1_nonneg' (mrs : shr_record) :
  0 <= shr_m mrs -> 0 <= shr_m (shr_1 mrs).
Proof.
  intros H. rewrite shr_1_m by exact H. apply Z.shiftr_nonneg. exact H.
Qed.

Lemma iter_shr_m (n : positive) :
  forall mrs, 0 <= shr_m mrs ->
    0 <= shr_m (iter_pos shr_1 n mrs) /\
    shr_m (iter_pos shr_1 n mrs) = Z.shiftr (shr_m mrs) (Z.pos n).
Proof.
  induction n as [n IH | n IH |]; intros mrs H; simpl.
  - pose proof (shr_1_nonneg' _ H) as H1.
    destruct (IH _ H1) as [H2 E2]. destruct (IH _ H2) as [H3 E3].
    split; [exact H3 |].
    rewrite E3, E2, shr_1_m by exact H.
    rewrite !Z.shiftr_shiftr by lia. f_equal. lia.
  - destruct (IH _ H) as [H2 E2]. destruct (IH _ H2) as [H3 E3].
    split; [exact H3 |].
    rewrite E3, E2. rewrite Z.shiftr_shiftr by lia. f_equal. lia.
  - split; [apply shr_1_nonneg'; exact H | apply shr_1_m; exact H].
Qed.

Lemma shr_record_of_loc_m (m : Z) (l : location) :
  shr_m (shr_record_of_loc m l) = m.
Proof. destruct l as [| []]; reflexivity. Qed.

(** One truncation step: the exponent becomes the format's, the mantissa
    is canonical or zero. *)
Lemma shr_fexp_canonical (m e : Z) (l : location) :
  0 <= m -> e <= fexp prec emax (Zdigits2 m + e) ->
  let '(mrs, e') := shr_fexp prec emax m e l in
  0 <= shr_m mrs /\
  (0 < shr_m mrs -> fexp prec emax (Zdigits2 (shr_m mrs) + e') = e') /\
  (shr_m mrs = 0 -> e' = -1074).
Proof.
  intros Hm Hpre. unfold shr_fexp, shr.
  rewrite fexp_eq in *.
  set (D := Zdigits2 m + e) in *.
  destruct (Z.max (D - 53) (-1074) - e) as [| n | n] eqn:Hn.
  - rewrite shr_record_of_loc_m.
    split; [exact Hm |]. split.
    + intros _. rewrite fexp_eq. fold D. lia.
    + intros ->. unfold D in *. simpl in *. lia.
  - pose proof (iter_shr_m n (shr_record_of_loc m l)) as Hit.
    rewrite shr_record_of_loc_m in Hit. destruct (Hit Hm) as [H0 Heq].
    split; [exact H0 |]. rewrite Heq. split.
    + intros Hpos. rewrite fexp_eq.
      assert (Hm0 : 0 < m).
      { destruct (Z.eq_dec m 0) as [-> | ]; [| lia].
        rewrite Z.shiftr_0_l in Hpos. lia. }
      rewrite (Zdigits2_log2 _ Hpos).
      rewrite Z.log2_shiftr by exact Hm0.
      assert (Hge : Z.pos n <= Z.log2 m).
      { apply Z.log2_le_pow2; [exact Hm0 |].
        rewrite Z.shiftr_div_pow2 in Hpos by lia.
        destruct (Z_lt_le_dec m (2 ^ Z.pos n)) as [Hlt | Hle]; [| exact Hle].
        rewrite Z.div_small in Hpos by lia. lia. }
      unfold D in *. rewrite (Zdigits2_log2 _ Hm0) in *. lia.
    + intros Hz.
      destruct (Z.eq_dec m 0) as [-> | Hne].
      * unfold D in *. simpl in *. lia.
      * assert (Hm0 : 0 < m) by lia.
        assert (Hlt : Z.log2 m < Z.pos n).
        { apply Z.log2_lt_pow2; [exact Hm0 |].
          rewrite Z.shiftr_div_pow2 in Hz by lia.
          destruct (Z_lt_le_dec m (2 ^ Z.pos n)) as [Hlt | Hle]; [exact Hlt |].
          assert (0 < m / 2 ^ Z.pos n).
          { apply Z.div_str_pos. split; [apply Z.pow_pos_nonneg; lia | exact Hle]. }
          lia. }
        unfold D in *. rewrite (Zdigits2_log2 _ Hm0) in *. lia.
  - lia.
Qed.

Lemma round_nearest_even_bounds (m : Z) (l : location) :
  m <= round_nearest_even m l <= m + 1.
Proof.
  unfold round_nearest_even. destruct l as [| []]; try destruct (Z.even m); lia.
Qed.

(** Rounding a mantissa precise enough gives a double. *)
Lemma round_aux_valid (s : bool) (m e : Z) (l : location) :
  0 <= m -> e <= fexp prec emax (Zdigits2 m + e) ->
  valid_binary prec emax (binary_round_aux prec emax s m e l) = true.
Proof.
  intros Hm Hpre. unfold binary_round_aux.
  pose proof (shr_fexp_canonical m e l Hm Hpre) as H1.
  destruct (shr_fexp prec emax m e l) as [mrs' e'].
  destruct H1 as [H1a [H1b H1c]].
  set (m2 := round_nearest_even (shr_m mrs') (loc_of_shr_record mrs')).
  pose proof (round_nearest_even_bounds (shr_m mrs') (loc_of_shr_record mrs'))
    as Hb. fold m2 in Hb.
  assert (Hpre2 : e' <= fexp prec emax (Zdigits2 m2 + e')).
  { destruct (Z.eq_dec (shr_m mrs') 0) as [Hz | Hnz].
    - rewrite (H1c Hz), fexp_eq. lia.
    - assert (Hpos : 0 < shr_m mrs') by lia.
      specialize (H1b Hpos). rewrite fexp_eq in *.
      pose proof (Zdigits2_mono (shr_m mrs') m2 ltac:(lia)). lia. }
  pose proof (shr_fexp_canonical m2 e' loc_Exact ltac:(lia) Hpre2) as H2.
  destruct (shr_fexp prec emax m2 e' loc_Exact) as [mrs'' e''].
  destruct H2 as [H2a [H2b _]].
  destruct (shr_m mrs'') as [| p | p] eqn:Hp; [reflexivity | | reflexivity].
  destruct (e'' <=? emax - prec) eqn:Hle; [| reflexivity].
  simpl. unfold bounded, canonical_mantissa.
  rewrite Hle, andb_true_r. apply Z.eqb_eq.
  apply (H2b ltac:(lia)).
Qed.

Lemma fexp_mono (a b : Z) : a <= b -> fexp prec emax a <= fexp prec emax b.
Proof. rewrite !fexp_eq. lia. Qed.

Lemma div_core_precise (m1 m2 : positive) (e1 e2 : Z) :
  let '(q, e', _) := SFdiv_core_binary prec emax (Z.pos m1) e1 (Z.pos m2) e2 in
  0 <= q /\ e' <= fexp prec emax (Zdigits2 q + e').
Proof.
  unfold SFdiv_core_binary.
  set (d1 := Zdigits2 (Z.pos m1)). set (d2 := Zdigits2 (Z.pos m2)).
  set (E := d1 + e1 - (d2 + e2)).
  set (e' := Z.min (fexp prec emax E) (e1 - e2)).
  set (s := e1 - e2 - e').
  assert (Hs : 0 <= s) by (unfold s, e'; lia).
  set (m' := match s with 0 => Z.pos m1 | Z.pos _ => Z.shiftl (Z.pos m1) s
                     | Z.neg _ => 0 end).
  assert (Hm' : m' = Z.pos m1 * 2 ^ s).
  { unfold m'. destruct s as [| p | p] eqn:Es; try lia.
    rewrite Z.shiftl_mul_pow2 by lia. reflexivity. }
  pose proof (Z_div_mod m' (Z.pos m2) eq_refl) as Hdm.
  destruct (Z.div_eucl m' (Z.pos m2)) as [q r]. destruct Hdm as [Heq Hr].
  assert (Hpow : 0 < 2 ^ s) by (apply Z.pow_pos_nonneg; lia).
  assert (Hq : 0 <= q) by nia.
  split; [exact Hq |].
  apply Z.le_trans with (fexp prec emax E); [unfold e'; lia |].
  apply fexp_mono.
  (* digits q >= d1 + s - d2 *)
  assert (Hd1 : d1 = Z.log2 (Z.pos m1) + 1) by (apply Zdigits2_log2; lia).
  assert (Hd2 : d2 = Z.log2 (Z.pos m2) + 1) by (apply Zdigits2_log2; lia).
  pose proof (Z.log2_spec (Z.pos m1) ltac:(lia)) as [L1 _].
  pose proof (Z.log2_spec (Z.pos m2) ltac:(lia)) as [_ U2].
  pose proof (Z.log2_nonneg (Z.pos m1)) as N1.
  pose proof (Z.log2_nonneg (Z.pos m2)) as N2.
  set (k := Z.log2 (Z.pos m1) + s - Z.succ (Z.log2 (Z.pos m2))).
  destruct (Z_lt_le_dec k 0) as [Hk | Hk].
  - pose proof (Zdigits2_nonneg q). unfold E, s, k in *. lia.
  - (* 2^k <= q *)
    assert (Hqk : 2 ^ k <= q).
    { assert (H2 : 2 ^ (Z.log2 (Z.pos m1) + s) =
                   2 ^ k * 2 ^ Z.succ (Z.log2 (Z.pos m2))).
      { rewrite <- Z.pow_add_r by lia. f_equal. unfold k. lia. }
      assert (H3 : 2 ^ (Z.log2 (Z.pos m1) + s) <= m').
      { rewrite Hm', Z.pow_add_r by lia. nia. }
      assert (Hk0 : 0 < 2 ^ k) by (apply Z.pow_pos_nonneg; lia).
      destruct (Z_lt_le_dec q (2 ^ k)) as [Hlt | Hle]; [| exact Hle].
      exfalso. nia. }
    assert (Hk0 : 0 < 2 ^ k) by (apply Z.pow_pos_nonneg; lia).
    assert (Hqpos : 0 < q) by lia.
    rewrite (Zdigits2_log2 _ Hqpos).
    assert (k <= Z.log2 q) by (apply Z.log2_le_pow2; [exact Hqpos | exact Hqk]).
    unfold E, s, k in *. lia.
Qed.

(** Every quotient is a double. *)
Lemma div_valid (x y : float) : valid_binary prec emax (div x y) = true.
Proof.
  destruct x as [sx | sx | | sx mx ex], y as [sy | sy | | sy my ey];
    try reflexivity.
  unfold div, SFdiv.
  pose proof (div_core_precise mx my ex ey) as H.
  destruct (SFdiv_core_binary prec emax (Z.pos mx) ex (Z.pos my) ey)
    as [[mz ez] lz].
  destruct H as [H0 Hpre]. apply round_aux_valid; assumption.
Qed.

Lemma div_eucl_pow (m q r : Z) (k : Z) :
  Z.div_eucl (m * k) 4503599627370496 = (q, r) ->
  (k = 4503599627370496 -> q = m /\ r = 0) /\
  (k = 9007199254740992 -> q = 2 * m /\ r = 0).
Proof.
  intros H.
  pose proof (Z_div_mod (m * k) 4503599627370496 eq_refl) as Hdm.
  rewrite H in Hdm. destruct Hdm as [Heq Hr].
  split; intros ->; lia.
Qed.

Lemma div_one_finite (s : bool) (m : positive) (e : Z) :
  bounded prec emax m e = true ->
  div (S754_finite s m e) (S754_finite false 4503599627370496 (-52)) =
  S754_finite s m e.
Proof.
  unfold bounded, canonical_mantissa. intros H.
  apply andb_true_iff in H. destruct H as [Hc He].
  apply Z.eqb_eq in Hc. apply Z.leb_le in He.
  rewrite fexp_eq in Hc. change (emax - prec) with 971 in He.
  set (d := Z.pos (digits2_pos m)) in *.
  assert (Hd : 0 < d) by (unfold d; lia).
  unfold div, SFdiv, SFdiv_core_binary.
  change (Zdigits2 (Z.pos m)) with d.
  change (Zdigits2 (Z.pos 4503599627370496)) with 53.
  rewrite fexp_eq.
  destruct (Z_le_gt_dec (-1073) e) as [Hn | Hsub].
  - (* normal, not in the lowest binade *)
    assert (Hd53 : d = 53) by lia.
    replace (Z.min (Z.max (d + e - (53 + -52) - 53) (-1074)) (e - -52))
      with (e - 1) by lia.
    replace (e - -52 - (e - 1)) with 53 by lia.
    rewrite Z.shiftl_mul_pow2 by lia.
    change (2 ^ 53) with 9007199254740992.
    destruct (Z.div_eucl (Z.pos m * 9007199254740992) 4503599627370496)
      as [q r] eqn:Hqr.
    apply div_eucl_pow in Hqr. destruct Hqr as [_ Hqr].
    destruct (Hqr eq_refl) as [-> ->].
    change (new_location 4503599627370496 0) with loc_Exact.
    change (2 * Z.pos m) with (Z.pos m~0).
    unfold binary_round_aux, shr_fexp.
    change (Zdigits2 (Z.pos m~0)) with (Z.pos (Pos.succ (digits2_pos m))).
    rewrite Pos2Z.inj_succ. fold d. rewrite fexp_eq.
    replace (Z.max (Z.succ d + (e - 1) - 53) (-1074) - (e - 1)) with 1 by lia.
    cbn [shr shr_record_of_loc iter_pos shr_1 shr_m loc_of_shr_record
         orb round_nearest_even].
    replace (e - 1 + 1) with e by lia.
    change (Zdigits2 (Z.pos m)) with d. rewrite fexp_eq.
    replace (Z.max (d + e - 53) (-1074) - e) with 0 by lia.
    cbn [shr shr_m].
    change (emax - prec) with 971.
    apply Z.leb_le in He. rewrite He.
    destruct s; reflexivity.
  - (* lowest exponent *)
    assert (He' : e = -1074) by lia.
    replace (Z.min (Z.max (d + e - (53 + -52) - 53) (-1074)) (e - -52))
      with e by lia.
    replace (e - -52 - e) with 52 by lia.
    rewrite Z.shiftl_mul_pow2 by lia.
    change (2 ^ 52) with 4503599627370496.
    destruct (Z.div_eucl (Z.pos m * 4503599627370496) 4503599627370496)
      as [q r] eqn:Hqr.
    apply div_eucl_pow in Hqr. destruct Hqr as [Hqr _].
    destruct (Hqr eq_refl) as [-> ->].
    change (new_location 4503599627370496 0) with loc_Exact.
    unfold binary_round_aux, shr_fexp.
    change (Zdigits2 (Z.pos m)) with d. rewrite fexp_eq.
    replace (Z.max (d + e - 53) (-1074) - e) with 0 by lia.
    cbn [shr shr_record_of_loc shr_m loc_of_shr_record round_nearest_even].
    change (Zdigits2 (Z.pos m)) with d. rewrite fexp_eq.
    replace (Z.max (d + e - 53) (-1074) - e) with 0 by lia.
    cbn [shr shr_m].
    change (emax - prec) with 971.
    apply Z.leb_le in He. rewrite He.
    destruct s; reflexivity.
Qed.

Lemma div_one (x : float) :
  valid_binary prec emax x = true -> div x (of_Z 1) = x.
Proof.
  change (of_Z 1) with (S754_finite false 4503599627370496 (-52)).
  destruct x as [[] | [] | | s m e]; try reflexivity.
  apply div_one_finite.
Qed.

Lemma add_pzero_canon (x : float) : canon (add (of_Z 0) x) = canon x.
Proof. destruct x as [[] | [] | |]; reflexivity. Qed.

Lemma add_pzero_valid (x : float) :
  valid_binary prec emax x = true ->
  valid_binary prec emax (add (of_Z 0) x) = true.
Proof. destruct x as [[] | [] | |]; intros H; try reflexivity; exact H. Qed.

(** The mean of one double is that double, up to the sign of zero. *)
Lemma mean_one (x : float) :
  valid_binary prec emax x = true -> canon (Numpy.mean [x]) = canon x.
Proof.
  intros Hv. unfold Numpy.mean. cbn [fold_left List.length Z.of_nat Pos.of_succ_nat].
  rewrite div_one by (apply add_pzero_valid; exact Hv).
  apply add_pzero_canon.
Qed.

(** The mean of two floats is their float average, up to the sign of
    zero. *)
Lemma mean_two (a b : float) :
  canon (Numpy.mean [a; b]) = canon (float_average a b).
Proof.
  unfold Numpy.mean, float_average. cbn [fold_left List.length].
  apply div_canon. apply add_canon; [apply add_pzero_canon | reflexivity].
Qed.

Lemma same_number_eqb (x y : float) :
  same_number x y = true -> is_nan y = false -> eqb x y = true.
Proof.
  unfold same_number. intros H Hn. rewrite Hn, andb_false_r, orb_false_r in H.
  exact H.
Qed.

(** ** The median as the middle of the sorted multiples *)

Lemma firstn1_skipn {A : Type} (l : list A) (i : nat) (x : A) :
  nth_error l i = Some x -> firstn 1 (skipn i l) = [x].
Proof.
  revert l. induction i as [| i IH]; intros [| y l] H; simpl in *;
    try discriminate H.
  - inversion H. reflexivity.
  - apply IH. exact H.
Qed.

Lemma firstn2_skipn {A : Type} (l : list A) (i : nat) (a b : A) :
  nth_error l i = Some a -> nth_error l (S i) = Some b ->
  firstn 2 (skipn i l) = [a; b].
Proof.
  revert l. induction i as [| i IH]; intros [| y l] Ha Hb; simpl in *;
    try discriminate Ha.
  - inversion Ha; subst. destruct l; simpl in *; [discriminate Hb |].
    inversion Hb. reflexivity.
  - apply IH; assumption.
Qed.

Lemma nth_error_some {A : Type} (l : list A) (i : nat) :
  (i < List.length l)%nat -> exists x, nth_error l i = Some x.
Proof.
  intros H. destruct (nth_error l i) eqn:E; [eauto |].
  apply nth_error_None in E. lia.
Qed.

Lemma existsb_is_nan_false (l : list float) :
  Forall (fun x => is_nan x = false) l -> existsb is_nan l = false.
Proof.
  induction 1 as [| x l Hx _ IH]; simpl; [reflexivity |].
  rewrite Hx, IH. reflexivity.
Qed.

Lemma sorted_numeric (s : list float) :
  Forall (fun x => is_nan x = false) s ->
  StronglySorted sort_le s -> Sorted numeric_le s.
Proof.
  intros Hn Hs. induction Hs as [| a l Hs IH Ha]; [constructor |].
  inversion Hn as [| ? ? Hna Hnl]; subst.
  constructor; [apply IH; exact Hnl |].
  destruct l as [| b l]; constructor.
  inversion Ha as [| ? ? Hab _]; subst.
  inversion Hnl as [| ? ? Hnb _]; subst.
  unfold sort_le, Numpy.sort_leb in Hab. rewrite Hnb, orb_false_r in Hab.
  exact Hab.
Qed.

Lemma even_half (n : nat) :
  Nat.odd n = false -> (0 < n)%nat ->
  (1 <= Nat.div n 2)%nat /\ n = (2 * Nat.div n 2)%nat.
Proof.
  intros Hodd Hpos.
  assert (Heven : Nat.even n = true).
  { rewrite <- Nat.negb_odd, Hodd. reflexivity. }
  apply Nat.even_spec in Heven. destruct Heven as [k ->].
  replace (Nat.div (2 * k) 2) with k.
  - lia.
  - symmetry. rewrite Nat.mul_comm. apply Nat.div_mul. discriminate.
Qed.

Lemma median_standard (vs : list float) :
  vs <> [] ->
  Forall (fun x => is_nan x = false) vs ->
  Forall (fun x => valid_binary prec emax x = true) vs ->
  standard_median vs (Numpy.median vs).
Proof.
  intros Hne Hn Hv.
  pose proof (sort_perm vs) as Hp.
  assert (Hns : Forall (fun x => is_nan x = false) (Numpy.sort vs)).
  { eapply Permutation_Forall; eassumption. }
  assert (Hvs : Forall (fun x => valid_binary prec emax x = true) (Numpy.sort vs)).
  { eapply Permutation_Forall; eassumption. }
  exists (Numpy.sort vs). split; [apply Permutation_sym; exact Hp |].
  split; [apply sorted_numeric; [exact Hns | apply sort_sorted] |].
  unfold Numpy.median, middle_or_average.
  rewrite (existsb_is_nan_false _ Hns), andb_false_r.
  rewrite <- (Permutation_length Hp).
  set (s := Numpy.sort vs) in *.
  set (n := List.length vs).
  assert (Hlen : List.length s = n) by (symmetry; apply Permutation_length; exact Hp).
  assert (Hpos : (0 < n)%nat).
  { unfold n. destruct vs; [congruence | simpl; lia]. }
  destruct (Nat.odd n) eqn:Hodd.
  - assert (Hlt : (Nat.div n 2 < List.length s)%nat).
    { rewrite Hlen. apply Nat.div_lt; lia. }
    destruct (nth_error_some _ _ Hlt) as [x Hx].
    exists x. split; [exact Hx |].
    unfold Numpy.slice.
    replace (Nat.div n 2 + 1 - Nat.div n 2)%nat with 1%nat by lia.
    rewrite (firstn1_skipn _ _ _ Hx).
    pose proof (nth_error_In _ _ Hx) as Hin.
    rewrite Forall_forall in Hns, Hvs.
    apply same_number_eqb; [| apply Hns; exact Hin].
    apply canon_same_number, mean_one. apply Hvs. exact Hin.
  - destruct (even_half n Hodd Hpos) as [Hge Hn2].
    assert (Hlt1 : (Nat.div n 2 - 1 < List.length s)%nat) by lia.
    assert (Hlt2 : (Nat.div n 2 < List.length s)%nat) by lia.
    destruct (nth_error_some _ _ Hlt1) as [a Ha].
    destruct (nth_error_some _ _ Hlt2) as [b Hb].
    exists a, b. split; [exact Ha | split; [exact Hb |]].
    unfold Numpy.slice.
    replace (Nat.div n 2 + 1 - (Nat.div n 2 - 1))%nat with 2%nat by lia.
    rewrite (firstn2_skipn _ _ a b Ha).
    + apply canon_same_number, mean_two.
    + replace (S (Nat.div n 2 - 1)) with (Nat.div n 2) by lia. exact Hb.
Qed.

(** The multiples are quotients, hence doubles. *)
Lemma multiples_valid (peer_data : dict peer) :
  Forall (fun x => valid_binary prec emax x = true)
         (values (map peer_multiple peer_data)).
Proof.
  unfold values. rewrite !Forall_map. apply Forall_forall.
  intros [company [[price eps] growth]] _. simpl. apply div_valid.
Qed.

Lemma peer_multiple_call (kv : string * peer) :
  is_zero (peer_forward_eps kv) = false ->
  peer_call_result kv (peer_multiple kv).
Proof.
  destruct kv as [company [[price eps] growth]]. simpl. intros Hnz.
  split; [reflexivity |]. apply calculate_implied_pe_ok. exact Hnz.
Qed.

Lemma peer_multiples_calls (peer_data : dict peer) :
  Forall (fun kv => is_zero (peer_forward_eps kv) = false) peer_data ->
  Forall2 peer_call_result peer_data (map peer_multiple peer_data).
Proof.
  induction 1 as [| kv rest Hnz _ IH]; simpl; constructor.
  - apply peer_multiple_call. exact Hnz.
  - exact IH.
Qed.

Lemma wf_example_peers : wf example_peers.
Proof.
  unfold wf, example_peers, keys. simpl.
  repeat constructor; simpl; intros H; decompose [or] H;
    try discriminate; assumption.
Qed.

Lemma wf_nan_peers : wf nan_peers.
Proof.
  unfold wf, nan_peers, keys. simpl.
  repeat constructor; simpl; intros H; decompose [or] H;
    try discriminate; assumption.
Qed.

(** C4, as amended: for a non-empty peer mapping whose forward EPS are all
    nonzero and whose multiples are all numbers (none is NaN), the call
    returns the multiples keyed by identifier in input order, each the
    value of [calculate_implied_pe] at the peer with payout ratio 0, and
    their median as double arithmetic computes it: for an odd count a
    float equal ([==]) to the middle of the values in numeric order, for
    an even count the same number as the float average [(a + b) / 2] of
    the two middle ones, which is infinite when [a + b] overflows and NaN
    for two opposite infinities. *)
Theorem industry_multiples_and_median (peer_data : dict peer) :
  peer_data <> [] ->
  wf peer_data ->
  Forall (fun kv => is_zero (peer_forward_eps kv) = false) peer_data ->
  Forall (fun kv => is_nan (snd (peer_multiple kv)) = false) peer_data ->
  exists r,
    calculate_industry_implied_pe peer_data = Ok r /\
    Forall2 peer_call_result peer_data (individual_multiples r) /\
    standard_median (values (individual_multiples r)) (median_pe r).
Proof.
  intros Hne Hwf Hnz Hnum. eexists.
  split; [apply calculate_industry_implied_pe_ok; assumption |]. simpl.
  split; [apply peer_multiples_calls; exact Hnz |].
  apply median_standard.
  - destruct peer_data; [congruence | discriminate].
  - unfold values. rewrite !Forall_map. exact Hnum.
  - apply multiples_valid.
Qed.

Lemma industry_multiples_and_median_witness :
  exists r,
    calculate_industry_implied_pe example_peers = Ok r /\
    Forall2 peer_call_result example_peers (individual_multiples r) /\
    standard_median (values (individual_multiples r)) (median_pe r).
Proof.
  apply (industry_multiples_and_median example_peers).
  - discriminate.
  - exact wf_example_peers.
  - repeat constructor.
  - repeat constructor.
Defined.

Lemma wf_overflow_peers : wf overflow_peers.
Proof.
  unfold wf, overflow_peers, keys. simpl.
  repeat constructor; simpl; intros H; decompose [or] H;
    try discriminate; assumption.
Qed.

(** C4 as stated fails in two ways.  On a NaN multiple numpy answers NaN,
    which equals no value, the middle one included.  On the two finite
    multiples [1e308] and [1.7e308] the sum overflows and the median
    returned is [+inf], above both values and so not their average. *)
Lemma industry_median_nan_or_overflow :
  (nan_peers <> [] /\ wf nan_peers /\
   Forall (fun kv => is_zero (peer_forward_eps kv) = false) nan_peers /\
   exists r,
     calculate_industry_implied_pe nan_peers = Ok r /\
     values (individual_multiples r) = [nan; of_Z 1; of_Z 2] /\
     median_pe r = nan /\
     ~ standard_median (values (individual_multiples r)) (median_pe r)) /\
  (overflow_peers <> [] /\ wf overflow_peers /\
   Forall (fun kv => is_zero (peer_forward_eps kv) = false) overflow_peers /\
   exists r a b,
     calculate_industry_implied_pe overflow_peers = Ok r /\
     values (individual_multiples r) = [a; b] /\
     is_finite a = true /\ is_finite b = true /\ leb a b = true /\
     median_pe r = inf /\
     leb (median_pe r) b = false).
Proof.
  split.
  - split; [discriminate |]. split; [exact wf_nan_peers |].
    split; [repeat constructor |].
    eexists. split; [vm_compute; reflexivity |].
    split; [reflexivity |]. split; [reflexivity |].
    cbn [values individual_multiples median_pe map snd].
    intros [s [Hp [_ Hm]]].
    pose proof (Permutation_length Hp) as Hlen.
    destruct s as [| a [| b [| c [| d s]]]]; try discriminate Hlen.
    unfold middle_or_average in Hm. simpl in Hm.
    destruct Hm as [x [_ Hx]]. discriminate Hx.
  - split; [discriminate |]. split; [exact wf_overflow_peers |].
    split; [repeat constructor |].
    do 3 eexists. split; [vm_compute; reflexivity |].
    repeat (split; [reflexivity |]). reflexivity.
Qed.

(** A lone multiple [-0.0]: numpy's sum starts from [0.0], so the median
    comes back as [0.0], equal to the multiple but not the same float. *)
Example industry_negative_zero_multiple :
  calculate_industry_implied_pe
    [("A"%string, (of_Z 0, of_Z (-1), of_Z 0))] =
  Ok (mkIndustry [("A"%string, S754_zero true)] (S754_zero false)) /\
  Numpy.median [S754_zero true; S754_zero true] = S754_zero false.
Proof. split; vm_compute; reflexivity. Qed.

(** C7: for a non-empty peer mapping with nonzero forward EPS throughout,
    the call on any reordering of its entries returns the same median:
    the same number under [==], or NaN in both cases.  The two floats are
    identical, except that a zero median may come with either sign. *)
Theorem industry_median_order_independent (peer_data peer_data' : dict peer) :
  peer_data <> [] ->
  wf peer_data ->
  Forall (fun kv => is_zero (peer_forward_eps kv) = false) peer_data ->
  Permutation peer_data peer_data' ->
  exists r r',
    calculate_industry_implied_pe peer_data = Ok r /\
    calculate_industry_implied_pe peer_data' = Ok r' /\
    same_number (median_pe r) (median_pe r') = true /\
    (median_pe r = median_pe r' \/
     is_zero (median_pe r) = true /\ is_zero (median_pe r') = true).
Proof.
  intros _ Hwf Hnz Hp.
  assert (Hwf' : wf peer_data').
  { unfold wf, keys in *. eapply Permutation_NoDup; [| exact Hwf].
    apply Permutation_map. exact Hp. }
  assert (Hnz' : Forall (fun kv => is_zero (peer_forward_eps kv) = false)
                        peer_data').
  { eapply Permutation_Forall; eassumption. }
  do 2 eexists.
  split; [apply calculate_industry_implied_pe_ok; assumption |].
  split; [apply calculate_industry_implied_pe_ok; assumption |]. simpl.
  assert (Hm : canon (Numpy.median (values (map peer_multiple peer_data))) =
               canon (Numpy.median (values (map peer_multiple peer_data')))).
  { apply median_perm_canon.
    unfold values. do 2 apply Permutation_map. exact Hp. }
  split; [apply canon_same_number; exact Hm | apply canon_eq_cases; exact Hm].
Qed.

(** The example peers, with the first two exchanged. *)
Lemma industry_median_order_independent_witness :
  exists r r',
    calculate_industry_implied_pe example_peers = Ok r /\
    calculate_industry_implied_pe
      [("Company B"%string, (of_Z 80, of_Z 4, lit 8 100));
       ("Company A"%string, (of_Z 100, of_Z 5, lit 10 100));
       ("Company C"%string, (of_Z 120, of_Z 6, lit 12 100))] = Ok r' /\
    same_number (median_pe r) (median_pe r') = true.
Proof.
  destruct (industry_median_order_independent example_peers
              [("Company B"%string, (of_Z 80, of_Z 4, lit 8 100));
               ("Company A"%string, (of_Z 100, of_Z 5, lit 10 100));
               ("Company C"%string, (of_Z 120, of_Z 6, lit 12 100))])
    as [r [r' [Hr [Hr' [Hsame _]]]]].
  - discriminate.
  - exact wf_example_peers.
  - repeat constructor.
  - apply perm_swap.
  - exists r, r'. split; [exact Hr | split; [exact Hr' | exact Hsame]].
Defined.

(** The example run: three multiples, the median being Company A's. *)
Example industry_example :
  calculate_industry_implied_pe example_peers =
  Ok (mkIndustry
        [("Company A"%string, S754_finite false 5117726849284655 (-48));
         ("Company B"%string, S754_finite false 5212499568715852 (-48));
         ("Company C"%string, S754_finite false 5026338869833142 (-48))]
        (S754_finite false 5117726849284655 (-48))).
Proof. vm_compute. reflexivity. Qed.

(** * Further properties of the calculator *)

(** ** Signs *)

Lemma round_aux_neg (s : bool) (m e : Z) (l : location) :
  binary_round_aux prec emax (negb s) m e l =
  neg (binary_round_aux prec emax s m e l).
Proof.
  unfold binary_round_aux.
  destruct (shr_fexp prec emax m e l) as [mrs' e'].
  destruct (shr_fexp prec emax _ e' loc_Exact) as [mrs'' e''].
  destruct (shr_m mrs''); [reflexivity | | reflexivity].
  destruct (e'' <=? emax - prec); reflexivity.
Qed.

Lemma negb_xorb_l' (a b : bool) : xorb (negb a) b = negb (xorb a b).
Proof. destruct a, b; reflexivity. Qed.

Lemma negb_xorb_r' (a b : bool) : xorb a (negb b) = negb (xorb a b).
Proof. destruct a, b; reflexivity. Qed.

Lemma div_neg_l (x y : float) : div (neg x) y = neg (div x y).
Proof.
  destruct x as [sx | sx | | sx mx ex], y as [sy | sy | | sy my ey];
    try reflexivity; unfold div, neg; simpl;
    try (rewrite negb_xorb_l'; reflexivity).
  destruct (SFdiv_core_binary prec emax (Z.pos mx) ex (Z.pos my) ey)
    as [[mz ez] lz].
  rewrite negb_xorb_l'. apply round_aux_neg.
Qed.

Lemma div_neg_r (x y : float) : div x (neg y) = neg (div x y).
Proof.
  destruct x as [sx | sx | | sx mx ex], y as [sy | sy | | sy my ey];
    try reflexivity; unfold div, neg; simpl;
    try (rewrite negb_xorb_r'; reflexivity).
  destruct (SFdiv_core_binary prec emax (Z.pos mx) ex (Z.pos my) ey)
    as [[mz ez] lz].
  rewrite negb_xorb_r'. apply round_aux_neg.
Qed.

Lemma mul_neg_l (x y : float) : mul (neg x) y = neg (mul x y).
Proof.
  destruct x as [sx | sx | | sx mx ex], y as [sy | sy | | sy my ey];
    try reflexivity; unfold mul, neg; simpl;
    try (rewrite negb_xorb_l'; reflexivity).
  rewrite negb_xorb_l'. apply round_aux_neg.
Qed.

Lemma is_zero_neg (x : float) : is_zero (neg x) = is_zero x.
Proof. destruct x; reflexivity. Qed.

(** X1: negating the price negates the multiple, and changes nothing to a
    [ZeroDivisionError]. *)
Theorem implied_pe_odd_in_price (price eps growth_rate payout_ratio : float) :
  calculate_implied_pe (neg price) eps growth_rate payout_ratio =
  result_map neg (calculate_implied_pe price eps growth_rate payout_ratio).
Proof.
  rewrite !calculate_implied_pe_unfold.
  destruct (is_zero _); simpl; [reflexivity |].
  rewrite div_neg_l. reflexivity.
Qed.

(** X2: negating the EPS negates the multiple as well. *)
Theorem implied_pe_odd_in_eps (price eps growth_rate payout_ratio : float) :
  calculate_implied_pe price (neg eps) growth_rate payout_ratio =
  result_map neg (calculate_implied_pe price eps growth_rate payout_ratio).
Proof.
  rewrite !calculate_implied_pe_unfold. unfold forward_eps.
  rewrite mul_neg_l, is_zero_neg.
  destruct (is_zero _); simpl; [reflexivity |].
  rewrite div_neg_r. reflexivity.
Qed.

(** ** No NaN out of finite inputs *)

Lemma iter_pos_inv {A : Type} (P : A -> Prop) (f : A -> A) :
  (forall x, P x -> P (f x)) ->
  forall n x, P x -> P (iter_pos f n x).
Proof.
  intros Hf. induction n as [n IH | n IH |]; intros x Hx; simpl; auto.
Qed.

Lemma shr_1_nonneg (mrs : shr_record) :
  0 <= shr_m mrs -> 0 <= shr_m (shr_1 mrs).
Proof.
  destruct mrs as [m r s]. simpl.
  destruct m as [| [p | p |] | [p | p |]]; simpl; lia.
Qed.

Lemma shr_nonneg (mrs : shr_record) (e n : Z) :
  0 <= shr_m mrs -> 0 <= shr_m (fst (shr mrs e n)).
Proof.
  intros H. unfold shr. destruct n as [| p | p]; simpl; try exact H.
  apply (iter_pos_inv (fun x => 0 <= shr_m x)); [apply shr_1_nonneg | exact H].
Qed.

Lemma shr_fexp_nonneg (m e : Z) (l : location) :
  0 <= m -> 0 <= shr_m (fst (shr_fexp prec emax m e l)).
Proof.
  intros H. unfold shr_fexp. apply shr_nonneg.
  destruct l as [| []]; exact H.
Qed.

Lemma round_nearest_even_nonneg (m : Z) (l : location) :
  0 <= m -> 0 <= round_nearest_even m l.
Proof.
  intros H. unfold round_nearest_even.
  destruct l as [| []]; try destruct (Z.even m); lia.
Qed.

Lemma round_aux_not_nan (s : bool) (m e : Z) (l : location) :
  0 <= m -> is_nan (binary_round_aux prec emax s m e l) = false.
Proof.
  intros H. unfold binary_round_aux.
  pose proof (shr_fexp_nonneg m e l H) as H1.
  destruct (shr_fexp prec emax m e l) as [mrs' e']. simpl in H1.
  pose proof (shr_fexp_nonneg _ e' loc_Exact
                (round_nearest_even_nonneg _ (loc_of_shr_record mrs') H1)) as H2.
  destruct (shr_fexp prec emax _ e' loc_Exact) as [mrs'' e'']. simpl in H2.
  destruct (shr_m mrs'') as [| p | p]; [reflexivity | | lia].
  destruct (e'' <=? emax - prec); reflexivity.
Qed.

Lemma mul_not_nan (x y : float) :
  is_finite x = true -> is_finite y = true -> is_nan (mul x y) = false.
Proof.
  destruct x as [sx | sx | | sx mx ex], y as [sy | sy | | sy my ey];
    simpl; intros; try discriminate; try reflexivity.
  apply round_aux_not_nan. lia.
Qed.

Lemma div_core_nonneg (m1 m2 : positive) (e1 e2 : Z) :
  0 <= fst (fst (SFdiv_core_binary prec emax (Z.pos m1) e1 (Z.pos m2) e2)).
Proof.
  unfold SFdiv_core_binary.
  set (s := _ - _ - _).
  set (m' := match s with Z0 => _ | Z.pos _ => _ | Z.neg _ => _ end).
  assert (Hm' : 0 <= m').
  { unfold m'. destruct s; try lia. apply Z.shiftl_nonneg. lia. }
  pose proof (Z_div_mod m' (Z.pos m2) eq_refl) as Hdm.
  destruct (Z.div_eucl m' (Z.pos m2)) as [q r]. simpl.
  destruct Hdm as [Heq Hr]. nia.
Qed.

(** A finite price over a forward EPS that is a number, zero excepted,
    is a number. *)
Lemma div_not_nan (x y : float) :
  is_finite x = true -> is_nan y = false -> is_zero y = false ->
  is_nan (div x y) = false.
Proof.
  destruct x as [sx | sx | | sx mx ex], y as [sy | sy | | sy my ey];
    simpl; intros; try discriminate; try reflexivity.
  unfold div. simpl.
  pose proof (div_core_nonneg mx my ex ey) as H2.
  destruct (SFdiv_core_binary prec emax (Z.pos mx) ex (Z.pos my) ey)
    as [[mz ez] lz].
  apply round_aux_not_nan. exact H2.
Qed.

Lemma multiple_not_nan (price eps growth : float) :
  is_finite price = true -> is_finite eps = true ->
  is_finite (add (of_Z 1) growth) = true ->
  is_zero (forward_eps eps growth) = false ->
  is_nan (multiple price eps growth) = false.
Proof.
  intros Hp He Hg Hnz. unfold multiple.
  apply div_not_nan; [exact Hp | | exact Hnz].
  unfold forward_eps. apply mul_not_nan; assumption.
Qed.

(** X3: with a finite price, a finite EPS and a finite [1 + growth_rate], the
    call either raises [ZeroDivisionError] or returns a number: NaN never
    comes out. *)
Theorem implied_pe_finite_inputs_never_nan
    (price eps growth_rate payout_ratio : float) :
  is_finite price = true ->
  is_finite eps = true ->
  is_finite (add (of_Z 1) growth_rate) = true ->
  calculate_implied_pe price eps growth_rate payout_ratio =
    Raise ZeroDivisionError \/
  exists v, calculate_implied_pe price eps growth_rate payout_ratio = Ok v /\
            is_nan v = false.
Proof.
  intros Hp He Hg. rewrite calculate_implied_pe_unfold.
  destruct (is_zero (forward_eps eps growth_rate)) eqn:Hz; [left; reflexivity |].
  right. eexists. split; [reflexivity |].
  apply multiple_not_nan; assumption.
Qed.

Lemma implied_pe_finite_inputs_never_nan_witness :
  exists v,
    calculate_implied_pe (of_Z 100) (of_Z 5) (lit 10 100) zero = Ok v /\
    is_nan v = false.
Proof.
  destruct (implied_pe_finite_inputs_never_nan
              (of_Z 100) (of_Z 5) (lit 10 100) zero) as [H | H].
  - reflexivity.
  - reflexivity.
  - vm_compute. reflexivity.
  - vm_compute in H. discriminate H.
  - exact H.
Defined.

(** ** Silent zeros *)

(** X4: a finite price gives a zero multiple as soon as the price is a zero or
    the forward EPS has overflowed to an infinity. *)
Theorem implied_pe_zero_multiple (price eps growth_rate payout_ratio : float) :
  is_finite price = true ->
  (is_zero price = true /\ is_zero (forward_eps eps growth_rate) = false /\
   is_nan (forward_eps eps growth_rate) = false) \/
  is_inf (forward_eps eps growth_rate) = true ->
  exists v, calculate_implied_pe price eps growth_rate payout_ratio = Ok v /\
            is_zero v = true.
Proof.
  intros Hp H. rewrite calculate_implied_pe_unfold.
  destruct (forward_eps eps growth_rate) as [sf | sf | | sf mf ef];
    destruct price as [sp | sp | | sp mp ep]; simpl in *;
    try discriminate Hp;
    destruct H as [[H1 [H2 H3]] | H]; try discriminate;
    eexists; (split; [reflexivity | reflexivity]).
Qed.

(** EPS [1e300] at growth [1e300]: the forward EPS overflows and the
    multiple of price 100 is [0.0]. *)
Lemma implied_pe_zero_multiple_witness :
  is_inf (forward_eps (S754_finite false 6724873095247260 944)
                      (S754_finite false 6724873095247260 944)) = true /\
  exists v,
    calculate_implied_pe (of_Z 100)
      (S754_finite false 6724873095247260 944)
      (S754_finite false 6724873095247260 944) zero = Ok v /\
    is_zero v = true.
Proof.
  split; [vm_compute; reflexivity |].
  apply (implied_pe_zero_multiple (of_Z 100)
           (S754_finite false 6724873095247260 944)
           (S754_finite false 6724873095247260 944) zero).
  - reflexivity.
  - right. vm_compute. reflexivity.
Defined.

(** ** Every outcome of the sensitivity grid *)

Lemma row_loop_unfold (price eps growth : float) (payout_ratios : list float) :
  forall row,
    row_loop price eps growth payout_ratios row =
    if is_zero (forward_eps eps growth) && nonempty payout_ratios
    then Raise ZeroDivisionError
    else Ok (row ++ map (fun _ => multiple price eps growth) payout_ratios).
Proof.
  destruct (is_zero (forward_eps eps growth)) eqn:Hz; simpl.
  - intros row. destruct payout_ratios as [| payout rest]; simpl.
    + rewrite app_nil_r. reflexivity.
    + rewrite (calculate_implied_pe_raise _ _ _ _ Hz). reflexivity.
  - intros row. apply row_loop_ok. exact Hz.
Qed.

Lemma matrix_loop_unfold (price eps : float)
    (growth_rates payout_ratios : list float) :
  forall m,
    matrix_loop price eps growth_rates payout_ratios m =
    if existsb (fun g => is_zero (forward_eps eps g)) growth_rates
       && nonempty payout_ratios
    then Raise ZeroDivisionError
    else Ok (m ++ grid_rows price eps growth_rates payout_ratios).
Proof.
  induction growth_rates as [| growth rest IH]; intros m; simpl.
  - rewrite app_nil_r. reflexivity.
  - rewrite row_loop_unfold.
    destruct (is_zero (forward_eps eps growth)); simpl.
    + destruct (nonempty payout_ratios); simpl; [reflexivity |].
      rewrite IH, andb_false_r, <- app_assoc. reflexivity.
    + rewrite IH. destruct (_ && _); [reflexivity |].
      rewrite <- app_assoc. reflexivity.
Qed.

Lemma sensitivity_analysis_unfold (price eps : float)
    (growth_rates payout_ratios : list float) :
  sensitivity_analysis price eps growth_rates payout_ratios =
  if existsb (fun g => is_zero (forward_eps eps g)) growth_rates
     && nonempty payout_ratios
  then Raise ZeroDivisionError
  else Ok (Pandas.mkDataFrame
             (grid_rows price eps growth_rates payout_ratios)
             (map PyFormat.percent1 growth_rates)
             (map PyFormat.percent1 payout_ratios)).
Proof.
  unfold sensitivity_analysis. rewrite matrix_loop_unfold.
  destruct (_ && _); simpl; [reflexivity |].
  apply make_ok.
  - unfold grid_rows. rewrite !length_map. reflexivity.
  - rewrite length_map. apply grid_rows_width.
Qed.

Lemma existsb_zero_Exists (eps : float) (growth_rates : list float) :
  existsb (fun g => is_zero (forward_eps eps g)) growth_rates = true <->
  Exists (fun g => is_zero (forward_eps eps g) = true) growth_rates.
Proof.
  rewrite existsb_exists, Exists_exists. reflexivity.
Qed.

Lemma nonempty_true {A : Type} (l : list A) : nonempty l = true <-> l <> [].
Proof.
  destruct l; simpl; split; intros H; try congruence; try discriminate.
Qed.

(** X5: the grid fails in one way only.  It raises [ZeroDivisionError] exactly
    when there is at least one payout ratio and some growth rate has a
    zero forward EPS; in every other case it returns a table, and the
    table constructor never refuses the labels. *)
Theorem sensitivity_grid_outcome (price eps : float)
    (growth_rates payout_ratios : list float) :
  (sensitivity_analysis price eps growth_rates payout_ratios =
     Raise ZeroDivisionError <->
   payout_ratios <> [] /\
   Exists (fun g => is_zero (forward_eps eps g) = true) growth_rates) /\
  ((exists df,
      sensitivity_analysis price eps growth_rates payout_ratios = Ok df) <->
   ~ (payout_ratios <> [] /\
      Exists (fun g => is_zero (forward_eps eps g) = true) growth_rates)) /\
  sensitivity_analysis price eps growth_rates payout_ratios <> Raise ValueError.
Proof.
  rewrite sensitivity_analysis_unfold.
  assert (Hb : existsb (fun g => is_zero (forward_eps eps g)) growth_rates
               && nonempty payout_ratios = true <->
               payout_ratios <> [] /\
               Exists (fun g => is_zero (forward_eps eps g) = true) growth_rates).
  { rewrite andb_true_iff, existsb_zero_Exists, nonempty_true. tauto. }
  destruct (_ && _).
  - split; [| split].
    + split; [intros _; apply Hb; reflexivity | reflexivity].
    + split.
      * intros [df H]. discriminate H.
      * intros H. exfalso. apply H, Hb. reflexivity.
    + discriminate.
  - assert (Hn : ~ (payout_ratios <> [] /\
                    Exists (fun g => is_zero (forward_eps eps g) = true)
                           growth_rates)).
    { intros H. apply Hb in H. discriminate H. }
    split; [| split].
    + split; [discriminate | intros H; exfalso; exact (Hn H)].
    + split; [intros _; exact Hn | intros _; eexists; reflexivity].
    + discriminate.
Qed.

(** X6: no payout ratio, no call: the table is returned with one empty row
    per growth rate, even for growth rates whose forward EPS is zero. *)
Theorem sensitivity_grid_no_payout_ratio (price eps : float)
    (growth_rates : list float) :
  sensitivity_analysis price eps growth_rates [] =
  Ok (Pandas.mkDataFrame (map (fun _ => []) growth_rates)
        (map PyFormat.percent1 growth_rates) []).
Proof.
  rewrite sensitivity_analysis_unfold, andb_false_r. reflexivity.
Qed.

Lemma sensitivity_analysis_values (price eps : float)
    (growth_rates payout_ratios : list float) (df : Pandas.DataFrame) :
  sensitivity_analysis price eps growth_rates payout_ratios = Ok df ->
  Pandas.df_values df = grid_rows price eps growth_rates payout_ratios.
Proof.
  rewrite sensitivity_analysis_unfold.
  destruct (_ && _); intros H; inversion H. reflexivity.
Qed.

Lemma grid_rows_cell (price eps : float) (growth_rates payout_ratios : list float)
    (i j : nat) (v : float) :
  Pandas.cell
    (Pandas.mkDataFrame (grid_rows price eps growth_rates payout_ratios)
       (map PyFormat.percent1 growth_rates)
       (map PyFormat.percent1 payout_ratios)) i j = Some v ->
  exists g, nth_error growth_rates i = Some g /\ v = multiple price eps g.
Proof.
  unfold Pandas.cell, grid_rows. simpl. rewrite nth_error_map.
  destruct (nth_error growth_rates i) as [g |]; simpl; [| discriminate].
  rewrite nth_error_map.
  destruct (nth_error payout_ratios j); simpl; [| discriminate].
  intros H. inversion H. exists g. split; reflexivity.
Qed.

(** X7: in a returned grid the cells of one row are all the same float: the
    payout ratio of the column changes nothing. *)
Theorem sensitivity_grid_rows_constant (price eps : float)
    (growth_rates payout_ratios : list float) (df : Pandas.DataFrame)
    (i j j' : nat) (v v' : float) :
  sensitivity_analysis price eps growth_rates payout_ratios = Ok df ->
  Pandas.cell df i j = Some v ->
  Pandas.cell df i j' = Some v' ->
  v = v'.
Proof.
  rewrite sensitivity_analysis_unfold.
  destruct (_ && _); intros H; inversion H; subst df. clear H.
  intros Hv Hv'.
  apply grid_rows_cell in Hv. apply grid_rows_cell in Hv'.
  destruct Hv as [g [Hg ->]]. destruct Hv' as [g' [Hg' ->]].
  congruence.
Qed.

Lemma sensitivity_grid_rows_constant_witness :
  exists df v,
    sensitivity_analysis (of_Z 100) (of_Z 5)
      [lit 5 100; lit 10 100] [lit 20 100; lit 30 100; lit 50 100] = Ok df /\
    Pandas.cell df 1 0 = Some v /\ Pandas.cell df 1 2 = Some v.
Proof.
  destruct (sensitivity_analysis (of_Z 100) (of_Z 5)
              [lit 5 100; lit 10 100] [lit 20 100; lit 30 100; lit 50 100])
    as [df | e] eqn:Hrun.
  - destruct (Pandas.cell df 1 0) as [v |] eqn:Hv.
    + destruct (Pandas.cell df 1 2) as [v' |] eqn:Hv'.
      * exists df, v. split; [reflexivity |]. split; [exact Hv |].
        rewrite (sensitivity_grid_rows_constant _ _ _ _ _ _ _ _ _ _
                   Hrun Hv Hv').
        exact Hv'.
      * vm_compute in Hrun. inversion Hrun; subst df. discriminate Hv'.
    + vm_compute in Hrun. inversion Hrun; subst df. discriminate Hv.
  - vm_compute in Hrun. discriminate Hrun.
Defined.

(** ** Every outcome of the industry aggregate *)

Lemma industry_loop_returns (items : list (string * peer)) :
  Forall (fun kv => is_zero (peer_forward_eps kv) = false) items ->
  forall pe_multiples,
    exists d, industry_loop items pe_multiples = Ok d.
Proof.
  induction 1 as [| [company [[price eps] growth]] rest Hnz _ IH];
    intros acc; simpl in *.
  - eexists. reflexivity.
  - rewrite (calculate_implied_pe_ok _ _ _ _ Hnz). simpl. apply IH.
Qed.

Lemma forall_or_exists_zero (items : list (string * peer)) :
  Forall (fun kv => is_zero (peer_forward_eps kv) = false) items \/
  Exists (fun kv => is_zero (peer_forward_eps kv) = true) items.
Proof.
  induction items as [| kv rest [IH | IH]].
  - left. constructor.
  - destruct (is_zero (peer_forward_eps kv)) eqn:Hz.
    + right. apply Exists_cons_hd. exact Hz.
    + left. constructor; assumption.
  - right. apply Exists_cons_tl. exact IH.
Qed.

(** X8: the aggregate fails in one way only: whatever exception it raises is
    a [ZeroDivisionError], and then some peer has a zero forward EPS.
    This holds for any mapping, empty or not. *)
Theorem industry_raises_only_on_zero_forward_eps
    (peer_data : dict peer) (e : exn) :
  calculate_industry_implied_pe peer_data = Raise e ->
  e = ZeroDivisionError /\
  Exists (fun kv => is_zero (peer_forward_eps kv) = true) peer_data.
Proof.
  intros H. destruct (forall_or_exists_zero peer_data) as [Hnz | Hz].
  - unfold calculate_industry_implied_pe in H.
    destruct (industry_loop_returns _ Hnz []) as [d Hd].
    rewrite Hd in H. discriminate H.
  - unfold calculate_industry_implied_pe in H.
    rewrite (industry_loop_raise _ Hz) in H. inversion H. split; [reflexivity | exact Hz].
Qed.

Lemma industry_raises_only_on_zero_forward_eps_witness :
  Exists (fun kv => is_zero (peer_forward_eps kv) = true)
    [("A"%string, (of_Z 100, of_Z 5, lit 10 100));
     ("B"%string, (of_Z 80, of_Z 4, of_Z (-1)))].
Proof.
  apply (industry_raises_only_on_zero_forward_eps
           [("A"%string, (of_Z 100, of_Z 5, lit 10 100));
            ("B"%string, (of_Z 80, of_Z 4, of_Z (-1)))] ZeroDivisionError).
  vm_compute. reflexivity.
Defined.

Lemma existsb_perm {A : Type} (f : A -> bool) (l l' : list A) :
  Permutation l l' -> existsb f l = existsb f l'.
Proof.
  induction 1 as [| x l l' _ IH | x y l | l l' l'' _ IH1 _ IH2]; simpl.
  - reflexivity.
  - rewrite IH. reflexivity.
  - destruct (f x), (f y); reflexivity.
  - congruence.
Qed.

Lemma existsb_is_nan_In (l : list float) :
  existsb is_nan l = true -> In nan l.
Proof.
  intros H. apply existsb_exists in H. destruct H as [x [Hin Hx]].
  destruct x; try discriminate Hx. exact Hin.
Qed.

Lemma median_nan (vs : list float) :
  existsb is_nan vs = true -> Numpy.median vs = nan.
Proof.
  intros H. unfold Numpy.median.
  rewrite <- (existsb_perm is_nan _ _ (sort_perm vs)), H.
  destruct vs; [discriminate H | reflexivity].
Qed.

(** X9: one NaN among the multiples makes the median NaN, whatever the other
    peers are. *)
Theorem industry_nan_multiple_gives_nan_median (peer_data : dict peer) :
  wf peer_data ->
  Forall (fun kv => is_zero (peer_forward_eps kv) = false) peer_data ->
  Exists (fun kv => is_nan (snd (peer_multiple kv)) = true) peer_data ->
  exists r,
    calculate_industry_implied_pe peer_data = Ok r /\
    median_pe r = nan.
Proof.
  intros Hwf Hnz Hnan. eexists.
  split; [apply calculate_industry_implied_pe_ok; assumption |]. simpl.
  apply median_nan. unfold values. rewrite !existsb_exists.
  apply Exists_exists in Hnan. destruct Hnan as [kv [Hin Hkv]].
  exists (snd (peer_multiple kv)). split; [| exact Hkv].
  apply in_map, in_map. exact Hin.
Qed.

Lemma industry_nan_multiple_gives_nan_median_witness :
  exists r,
    calculate_industry_implied_pe nan_peers = Ok r /\ median_pe r = nan.
Proof.
  apply (industry_nan_multiple_gives_nan_median nan_peers).
  - exact wf_nan_peers.
  - repeat constructor.
  - apply Exists_cons_hd. reflexivity.
Defined.

Lemma median_odd_member (vs : list float) :
  Nat.odd (List.length vs) = true ->
  Forall (fun x => valid_binary prec emax x = true) vs ->
  exists x, In x vs /\ same_number (Numpy.median vs) x = true.
Proof.
  intros Hodd Hv.
  destruct (existsb is_nan vs) eqn:Hn.
  - exists nan. split; [apply existsb_is_nan_In; exact Hn |].
    rewrite (median_nan _ Hn). reflexivity.
  - unfold Numpy.median.
    rewrite <- (existsb_perm is_nan _ _ (sort_perm vs)), Hn, andb_false_r, Hodd.
    pose proof (sort_perm vs) as Hp.
    assert (Hlt : (Nat.div (List.length vs) 2 < List.length (Numpy.sort vs))%nat).
    { rewrite <- (Permutation_length Hp). apply Nat.div_lt; [| lia].
      destruct vs; [discriminate Hodd | simpl; lia]. }
    destruct (nth_error_some _ _ Hlt) as [x Hx].
    assert (Hin : In x vs).
    { eapply Permutation_in; [apply Permutation_sym; exact Hp |].
      eapply nth_error_In. exact Hx. }
    exists x. split; [exact Hin |].
    unfold Numpy.slice.
    replace (Nat.div (List.length vs) 2 + 1 - Nat.div (List.length vs) 2)%nat
      with 1%nat by lia.
    rewrite (firstn1_skipn _ _ _ Hx).
    apply canon_same_number, mean_one.
    rewrite Forall_forall in Hv. apply Hv. exact Hin.
Qed.

(** X10: with an odd number of peers the median is, as a number, one of
    the multiples of the result: it compares equal ([==]) to it, or both
    are NaN.  It need not be the identical float, numpy answering [0.0]
    for a middle value [-0.0]. *)
Theorem industry_odd_median_is_a_multiple (peer_data : dict peer) :
  wf peer_data ->
  Forall (fun kv => is_zero (peer_forward_eps kv) = false) peer_data ->
  Nat.odd (List.length peer_data) = true ->
  exists r x,
    calculate_industry_implied_pe peer_data = Ok r /\
    In x (values (individual_multiples r)) /\
    same_number (median_pe r) x = true.
Proof.
  intros Hwf Hnz Hodd.
  destruct (median_odd_member (values (map peer_multiple peer_data)))
    as [x [Hin Hx]].
  - unfold values. rewrite !length_map. exact Hodd.
  - apply multiples_valid.
  - eexists. exists x.
    split; [apply calculate_industry_implied_pe_ok; assumption |]. simpl.
    split; [exact Hin | exact Hx].
Qed.

Lemma industry_odd_median_is_a_multiple_witness :
  exists r x,
    calculate_industry_implied_pe example_peers = Ok r /\
    In x (values (individual_multiples r)) /\
    same_number (median_pe r) x = true.
Proof.
  apply (industry_odd_median_is_a_multiple example_peers).
  - exact wf_example_peers.
  - repeat constructor.
  - reflexivity.
Defined.

(** X11: finite peers give multiples that are numbers, so the median of a
    non-empty mapping of finite peers with nonzero forward EPS is the
    median of the multiples as double arithmetic computes it: equal
    ([==]) to the middle value for an odd count, the same number as the
    float average [(a + b) / 2] of the two middle values for an even
    count. *)
Theorem industry_finite_peers_standard_median (peer_data : dict peer) :
  peer_data <> [] ->
  wf peer_data ->
  Forall finite_peer peer_data ->
  Forall (fun kv => is_zero (peer_forward_eps kv) = false) peer_data ->
  exists r,
    calculate_industry_implied_pe peer_data = Ok r /\
    Forall (fun v => is_nan v = false) (values (individual_multiples r)) /\
    standard_median (values (individual_multiples r)) (median_pe r).
Proof.
  intros Hne Hwf Hfin Hnz.
  assert (Hnum : Forall (fun v => is_nan v = false)
                        (values (map peer_multiple peer_data))).
  { unfold values. rewrite !Forall_map.
    rewrite Forall_forall in *. intros kv Hin.
    specialize (Hfin kv Hin). specialize (Hnz kv Hin).
    destruct kv as [company [[price eps] growth]]. simpl in *.
    destruct Hfin as [Hp [He Hg]].
    apply multiple_not_nan; assumption. }
  eexists.
  split; [apply calculate_industry_implied_pe_ok; assumption |]. simpl.
  split; [exact Hnum |].
  apply median_standard; [| exact Hnum | apply multiples_valid].
  destruct peer_data; [congruence | discriminate].
Qed.

Lemma industry_finite_peers_standard_median_witness :
  exists r,
    calculate_industry_implied_pe example_peers = Ok r /\
    Forall (fun v => is_nan v = false) (values (individual_multiples r)) /\
    standard_median (values (individual_multiples r)) (median_pe r).
Proof.
  apply (industry_finite_peers_standard_median example_peers).
  - discriminate.
  - exact wf_example_peers.
  - repeat constructor.
  - repeat constructor.
Defined.
